(** * Telemetry record service: CRUD handlers and the subscriber set

    A shallow embedding of [main.py]: the [processed_agent_data] table and
    the SQL statements the handlers issue, the five FastAPI handlers with
    their [try]/[except] blocks, the route wiring that binds request
    parameters to handler arguments, and the module-level [subscriptions]
    set with [websocket_endpoint] and [send_data_to_subscribers]. *)

From Stdlib Require Import Ascii.
From stdpp Require Import gmap list strings.

Local Open Scope string_scope.

(** ** Values carried by the records *)

(** A Python [float] is carried as its IEEE-754 binary64 bit pattern; the
    handlers only copy these values, they never compute on them. *)
Definition float := Z.

(** [datetime.datetime]: calendar fields plus the optional UTC offset (in
    minutes) of an aware value. *)
Record datetime := mk_datetime {
  year : Z; month : Z; day : Z;
  hour : Z; minute : Z; second : Z; microsecond : Z;
  utcoffset : option Z
}.

(** ** The pydantic models *)

Module AccelerometerData.
Record t := mk { x : float; y : float; z : float }.
End AccelerometerData.

Module GpsData.
Record t := mk { latitude : float; longitude : float }.
End GpsData.

Module AgentData.
Record t := mk {
  user_id : Z;
  accelerometer : AccelerometerData.t;
  gps : GpsData.t;
  timestamp : datetime
}.
End AgentData.

Module ProcessedAgentData.
Record t := mk { road_state : string; agent_data : AgentData.t }.
End ProcessedAgentData.

Module ProcessedAgentDataInDB.
Record t := mk {
  id : Z;
  road_state : string;
  user_id : Z;
  x : float; y : float; z : float;
  latitude : float; longitude : float;
  timestamp : datetime
}.
End ProcessedAgentDataInDB.

(** ** The [processed_agent_data] table *)

(** One row of the table; [c.id row] reads like [processed_agent_data.c.id]. *)
Module c.
Record Row := mk {
  id : Z;
  road_state : string;
  user_id : Z;
  x : float; y : float; z : float;
  latitude : float; longitude : float;
  timestamp : datetime
}.
End c.
Abbreviation Row := c.Row.

(** The eight non-key columns of an [insert().values(...)] or
    [update().values(...)] with the [new_data] dict. *)
Module new_data.
Record t := mk {
  road_state : string;
  user_id : Z;
  x : float; y : float; z : float;
  latitude : float; longitude : float;
  timestamp : datetime
}.
End new_data.

Definition row_of (i : Z) (v : new_data.t) : Row :=
  c.mk i (new_data.road_state v) (new_data.user_id v)
       (new_data.x v) (new_data.y v) (new_data.z v)
       (new_data.latitude v) (new_data.longitude v) (new_data.timestamp v).

(** ** Exceptions and handler results *)

Definition WebSocket := nat.

(** [HTTPException(status_code=500, detail=str(e))] keeps the text of the
    exception it wraps: [Str e] stands for [str(e)]. *)
Inductive Exception :=
| HTTPException (status_code : Z) (detail : Detail)
| TypeError (msg : string)
| ValueError (msg : string)
| KeyError (key : WebSocket)
| OperationalError
| IntegrityError
| DataError
| RequestValidationError
| WebSocketDisconnect
with Detail :=
| Text (s : string)
| Str (e : Exception).

Inductive Result (A : Type) :=
| Return (a : A)
| Raise (e : Exception).
Arguments Return {A} a.
Arguments Raise {A} e.

(** Code that runs against a mutable state [S] and either returns or
    raises; the state survives a raise, as a Python object does. *)
Definition M (S A : Type) := S -> Result A * S.

Definition ret {S A} (a : A) : M S A := fun s => (Return a, s).
Definition raise {S A} (e : Exception) : M S A := fun s => (Raise e, s).
Definition bind {S A B} (m : M S A) (k : A -> M S B) : M S B :=
  fun s => match m s with
           | (Return a, s') => k a s'
           | (Raise e, s') => (Raise e, s')
           end.
Definition try_except {S A} (body : M S A) (handler : Exception -> M S A)
  : M S A :=
  fun s => match body s with
           | (Return a, s') => (Return a, s')
           | (Raise e, s') => handler e s'
           end.

Notation "'let*' x ':=' m 'in' k" := (bind m (fun x => k))
  (at level 10, x name, m at level 99, k at level 200).
Notation "m ';;' k" := (bind m (fun _ => k))
  (at level 100, k at level 200, right associativity).

(** ** The store: engine, session, statements *)

Inductive Statement :=
| SELECT_WHERE_ID (record_id : Z)
| SELECT_ALL
| INSERT (values : new_data.t)
| UPDATE_WHERE_ID (record_id : Z) (values : new_data.t)
| DELETE_WHERE_ID (record_id : Z)
| COMMIT.

(** The database behind [engine]: the committed rows, the sequence that
    feeds the integer primary key, whether the server can be reached, and
    the statements it has received (oldest first). *)
Record Database := mk_Database {
  rows : list Row;
  id_seq : Z;
  reachable : bool;
  received : list Statement
}.

(** A [Session] from [SessionLocal()]: [autocommit=False], so statements
    act on the transaction's view [txn] until [commit]. *)
Record Session := mk_Session {
  engine : Database;
  txn : list Row
}.

Definition SessionLocal (d : Database) : Session :=
  mk_Session d (rows d).

(** [db.close()] ends the session; what was not committed is rolled back. *)
Definition close (db : Session) : Database := engine db.

(** The database after it has received the statements [qs]. *)
Definition logged (qs : list Statement) (d : Database) : Database :=
  mk_Database (rows d) (id_seq d) (reachable d) (received d ++ qs).

(** [WHERE id = record_id], [WHERE NOT id = record_id] as DELETE leaves
    it, and [SET] of the eight value columns on the rows with that id. *)
Definition where_id (record_id : Z) (table : list Row) : list Row :=
  filter (fun r => c.id r = record_id) table.

Definition where_not_id (record_id : Z) (table : list Row) : list Row :=
  filter (fun r => c.id r <> record_id) table.

Definition set_values (record_id : Z) (v : new_data.t) (table : list Row)
  : list Row :=
  map (fun r => if decide (c.id r = record_id) then row_of (c.id r) v else r)
      table.

(** The ids of the committed rows. *)
Definition ids (d : Database) : list Z := c.id <$> rows d.

(** The key constraint as the handlers maintain it: ids are pairwise
    distinct and the sequence is ahead of all of them. *)
Definition primary_key (d : Database) : Prop :=
  NoDup (ids d) /\ Forall (fun r => c.id r < id_seq d)%Z (rows d).

(** Every statement first has to reach the server. *)
Definition send_statement (q : Statement) : M Session unit :=
  fun db =>
    if reachable (engine db)
    then (Return tt, mk_Session (logged [q] (engine db)) (txn db))
    else (Raise OperationalError, db).

(** [db.execute(select(processed_agent_data).where(c.id == record_id))] *)
Definition execute_select (record_id : Z) : M Session (list Row) :=
  send_statement (SELECT_WHERE_ID record_id) ;;
  fun db => (Return (where_id record_id (txn db)), db).

(** [.fetchone()]: the first row of the result, or [None]. *)
Definition fetchone (result : list Row) : option Row := head result.

(** [db.query(processed_agent_data).all()]: every row. The statement has
    no ORDER BY, so the order of the answer is the engine's choice; here it
    is the order of the table. *)
Definition query_all : M Session (list Row) :=
  send_statement SELECT_ALL ;;
  fun db => (Return (txn db), db).

(** [db.execute(processed_agent_data.insert().values(...))]: the key comes
    from the sequence, which advances even when the insert is refused by
    the primary-key constraint. The row takes the values as they are
    bound; what the column types make of them is [through_columns] below. *)
Definition execute_insert (v : new_data.t) : M Session unit :=
  send_statement (INSERT v) ;;
  fun db =>
    let d := engine db in
    let new_id := id_seq d in
    let d' := mk_Database (rows d) (new_id + 1)%Z (reachable d) (received d) in
    if decide (Exists (fun r => c.id r = new_id) (txn db))
    then (Raise IntegrityError, mk_Session d' (txn db))
    else (Return tt, mk_Session d' (txn db ++ [row_of new_id v])).

(** [db.execute(processed_agent_data.update().where(c.id == record_id)
    .values(...))] with the entries of [new_data] *)
Definition execute_update (record_id : Z) (v : new_data.t) : M Session unit :=
  send_statement (UPDATE_WHERE_ID record_id v) ;;
  fun db =>
    (Return tt, mk_Session (engine db) (set_values record_id v (txn db))).

(** [db.execute(processed_agent_data.delete().where(c.id == record_id))] *)
Definition execute_delete (record_id : Z) : M Session unit :=
  send_statement (DELETE_WHERE_ID record_id) ;;
  fun db =>
    (Return tt, mk_Session (engine db) (where_not_id record_id (txn db))).

(** [db.commit()] *)
Definition commit : M Session unit :=
  send_statement COMMIT ;;
  fun db =>
    let d := engine db in
    (Return tt,
     mk_Session (mk_Database (txn db) (id_seq d) (reachable d) (received d))
                (txn db)).

(** ** The CRUD handlers *)

Definition in_db (record : Row) : ProcessedAgentDataInDB.t :=
  ProcessedAgentDataInDB.mk
    (c.id record) (c.road_state record) (c.user_id record)
    (c.x record) (c.y record) (c.z record)
    (c.latitude record) (c.longitude record) (c.timestamp record).

(** The values both [create] and [update] take out of the request model. *)
Definition values_of (data : ProcessedAgentData.t) : new_data.t :=
  let agent := ProcessedAgentData.agent_data data in
  new_data.mk
    (ProcessedAgentData.road_state data)
    (AgentData.user_id agent)
    (AccelerometerData.x (AgentData.accelerometer agent))
    (AccelerometerData.y (AgentData.accelerometer agent))
    (AccelerometerData.z (AgentData.accelerometer agent))
    (GpsData.latitude (AgentData.gps agent))
    (GpsData.longitude (AgentData.gps agent))
    (AgentData.timestamp agent).

(** [except Exception as e: raise HTTPException(status_code=500,
    detail=str(e))] *)
Definition except_Exception {A} (e : Exception) : M Session A :=
  raise (HTTPException 500 (Str e)).

Definition read_processed_agent_data (record_id : Z)
  : M Session ProcessedAgentDataInDB.t :=
  try_except
    (let* result := execute_select record_id in
     match fetchone result with
     | Some record => ret (in_db record)
     | None => raise (HTTPException 404 (Text "Record not found"))
     end)
    except_Exception.

Definition create_processed_agent_data (data : ProcessedAgentData.t)
  : M Session (gmap string string) :=
  try_except
    (execute_insert (values_of data) ;;
     commit ;;
     ret {[ "message" := "OK" ]})
    except_Exception.

Definition list_processed_agent_data : M Session (list Row) :=
  try_except
    (let* data := query_all in
     ret data)
    except_Exception.

Definition update_processed_agent_data
  (record_id : Z) (data : ProcessedAgentData.t)
  : M Session ProcessedAgentDataInDB.t :=
  try_except
    (let new_data := values_of data in
     execute_update record_id new_data ;;
     commit ;;
     ret (ProcessedAgentDataInDB.mk
            record_id
            (new_data.road_state new_data) (new_data.user_id new_data)
            (new_data.x new_data) (new_data.y new_data) (new_data.z new_data)
            (new_data.latitude new_data) (new_data.longitude new_data)
            (new_data.timestamp new_data)))
    except_Exception.

(** [data_to_delete[0]] on [None] raises [TypeError]. *)
Definition delete_processed_agent_data (record_id : Z)
  : M Session ProcessedAgentDataInDB.t :=
  try_except
    (let* result := execute_select record_id in
     let data_to_delete := fetchone result in
     execute_delete record_id ;;
     commit ;;
     match data_to_delete with
     | Some row =>
         ret (ProcessedAgentDataInDB.mk
                (c.id row) (c.road_state row) (c.user_id row)
                (c.x row) (c.y row) (c.z row)
                (c.latitude row) (c.longitude row) (c.timestamp row))
     | None => raise (TypeError "'NoneType' object is not subscriptable")
     end)
    except_Exception.

(** ** Request validation *)

(** What a request can offer for [timestamp] before validation. *)
Inductive value :=
| VDatetime (d : datetime)
| VStr (s : string)
| VNumber (n : Z)
| VNone.

(** The request body of POST and PUT with [timestamp] still unvalidated. *)
Module Body.
Record agent_data_t := mk_agent_data {
  user_id : Z;
  accelerometer : AccelerometerData.t;
  gps : GpsData.t;
  timestamp : value
}.
Record t := mk { road_state : string; agent_data : agent_data_t }.
End Body.

(** ** Live connections and the process state *)

(** The peer's side of a websocket: whether the connection is still open
    and the objects handed to [send_json] on it so far (oldest first). *)
Record Connection := mk_Connection {
  is_open : bool;
  delivered : list string
}.

(** The process: the database behind [engine], the module-level
    [subscriptions] set and the connections of the websocket peers. *)
Record App := mk_App {
  database : Database;
  subscriptions : gset WebSocket;
  connections : gmap WebSocket Connection
}.

(** [set.remove] raises [KeyError] on a missing element. *)
Definition set_remove (websocket : WebSocket) (s : gset WebSocket)
  : Result (gset WebSocket) :=
  if decide (websocket ∈ s)
  then Return (s ∖ {[ websocket ]})
  else Raise (KeyError websocket).

(** [websocket_endpoint] up to its first [receive_text]:
    [await websocket.accept()] and [subscriptions.add(websocket)]. *)
Definition websocket_endpoint_accept (websocket : WebSocket) : M App unit :=
  fun app =>
    (Return tt,
     mk_App (database app)
            ({[ websocket ]} ∪ subscriptions app)
            (<[ websocket := mk_Connection true [] ]> (connections app))).

(** The peer goes away: sends on the connection fail from now on. *)
Definition peer_closes (websocket : WebSocket) (app : App) : App :=
  mk_App (database app) (subscriptions app)
         (alter (fun conn => mk_Connection false (delivered conn))
                websocket (connections app)).

(** [websocket_endpoint] when [receive_text] raises [WebSocketDisconnect]:
    the [except] branch runs [subscriptions.remove(websocket)]. *)
Definition websocket_endpoint_disconnect (websocket : WebSocket)
  : M App unit :=
  fun app =>
    let app := peer_closes websocket app in
    match set_remove websocket (subscriptions app) with
    | Return s => (Return tt, mk_App (database app) s (connections app))
    | Raise e => (Raise e, app)
    end.

(** [await websocket.send_json(obj)]; on a connection whose peer is gone
    the send raises [WebSocketDisconnect]. *)
Definition send_json (websocket : WebSocket) (obj : string) : M App unit :=
  fun app =>
    match connections app !! websocket with
    | Some conn =>
        if is_open conn
        then (Return tt,
              mk_App (database app) (subscriptions app)
                     (<[ websocket :=
                           mk_Connection true (delivered conn ++ [obj]) ]>
                        (connections app)))
        else (Raise WebSocketDisconnect, app)
    | None => (Raise WebSocketDisconnect, app)
    end.

(** Whether a send on the websocket succeeds. *)
Definition live (app : App) (websocket : WebSocket) : bool :=
  match connections app !! websocket with
  | Some conn => is_open conn
  | None => false
  end.

(** What the peer of the websocket has been sent so far. *)
Definition inbox (app : App) (websocket : WebSocket) : list string :=
  match connections app !! websocket with
  | Some conn => delivered conn
  | None => []
  end.

(** A [for] loop whose body may raise: the first raise leaves the loop. *)
Fixpoint for_each {S A} (l : list A) (body : A -> M S unit) : M S unit :=
  match l with
  | [] => ret tt
  | a :: l' => body a ;; for_each l' body
  end.

Section Dispatcher.
(** [json.dumps] raises [TypeError] on an object it cannot serialise. *)
Context {Data : Type} (json_dumps : Data -> Result string).

Definition send_data_to_subscribers (data : Data) : M App unit :=
  fun app =>
    for_each (elements (subscriptions app))
      (fun websocket =>
         let* text := (fun app => (json_dumps data, app)) in
         send_json websocket text)
      app.
End Dispatcher.

(** ** Route wiring *)

Inductive Content :=
| Json_message (d : gmap string string)
| Json_record (r : ProcessedAgentDataInDB.t)
| Json_records (l : list ProcessedAgentDataInDB.t)
| Json_detail (d : Detail)
| Json_validation_error (loc : string) (e : option Exception)
| Plain_text (s : string).

Record Response := mk_Response {
  status : Z;
  content : Content
}.

(** [Depends(connect_to_db)]: a session per request, closed in [finally]. *)
Definition connect_to_db {A} (handler : M Session A) : M App A :=
  fun app =>
    let '(r, db) := handler (SessionLocal (database app)) in
    (r, mk_App (close db) (subscriptions app) (connections app)).

(** What FastAPI answers for a handler's outcome. *)
Definition respond {A} (render : A -> Content) (r : Result A) : Response :=
  match r with
  | Return a => mk_Response 200 (render a)
  | Raise (HTTPException status_code detail) =>
      mk_Response status_code (Json_detail detail)
  | Raise _ => mk_Response 500 (Plain_text "Internal Server Error")
  end.

Definition serve {A} (render : A -> Content) (handler : M Session A)
  : App -> Response * App :=
  fun app =>
    let '(r, app') := connect_to_db handler app in
    (respond render r, app').

(** A request whose parameters do not validate never reaches the handler. *)
Definition unprocessable (loc : string) (e : option Exception)
  : App -> Response * App :=
  fun app => (mk_Response 422 (Json_validation_error loc e), app).

(** The two answers that stand for a failure inside a handler body. *)
Definition not_found_as_500 : Response :=
  mk_Response 500 (Json_detail (Str (HTTPException 404 (Text "Record not found")))).

Definition type_error_as_500 : Response :=
  mk_Response 500
    (Json_detail (Str (TypeError "'NoneType' object is not subscriptable"))).

(** The process with its database replaced. *)
Definition with_database (d : Database) (app : App) : App :=
  mk_App d (subscriptions app) (connections app).

Section Routes.
(** [datetime.fromisoformat]; [None] where it raises [ValueError]. *)
Variable fromisoformat : string -> option datetime.

(** pydantic's own validation of a field annotated [datetime] (library
    code, not this repository): the value it builds, or [None] where it
    refuses the input. *)
Variable datetime_field : value -> option datetime.

Definition check_timestamp (value : value) : Result datetime :=
  match value with
  | VDatetime d => Return d
  | VStr s =>
      match fromisoformat s with
      | Some d => Return d
      | None =>
          Raise (ValueError
            "Invalid timestamp format. Expected ISO 8601 format (YYYY-MM-DDTHH:MM:SSZ).")
      end
  | VNumber _ | VNone =>
      Raise (ValueError
        "Invalid timestamp format. Expected ISO 8601 format (YYYY-MM-DDTHH:MM:SSZ).")
  end.

(** Building [ProcessedAgentData] from the body. [check_timestamp] is
    declared with [classmethod] applied on top of [field_validator]: the
    class attribute is then a plain classmethod object, which pydantic does
    not collect as a validator, so the function is never run and the
    field's own validation alone decides on [timestamp]. *)
Definition validate (body : Body.t) : Result ProcessedAgentData.t :=
  let agent := Body.agent_data body in
  match datetime_field (Body.timestamp agent) with
  | Some d =>
      Return (ProcessedAgentData.mk (Body.road_state body)
                (AgentData.mk (Body.user_id agent) (Body.accelerometer agent)
                              (Body.gps agent) d))
  | None => Raise RequestValidationError
  end.

(** The path declares [{processed_agent_data_id}]; the handlers declare
    [record_id], which FastAPI therefore takes from the query string
    ([None]: missing or not an integer). *)
Definition GET_item (processed_agent_data_id : string)
  (record_id : option Z) : App -> Response * App :=
  match record_id with
  | Some record_id =>
      serve Json_record (read_processed_agent_data record_id)
  | None => unprocessable "query.record_id" None
  end.

Definition POST_collection (body : Body.t) : App -> Response * App :=
  match validate body with
  | Return data => serve Json_message (create_processed_agent_data data)
  | Raise e => unprocessable "body.agent_data.timestamp" (Some e)
  end.

Definition GET_collection : App -> Response * App :=
  serve (fun data => Json_records (map in_db data))
        list_processed_agent_data.

Definition PUT_item (processed_agent_data_id : string)
  (record_id : option Z) (body : Body.t) : App -> Response * App :=
  match record_id with
  | Some record_id =>
      match validate body with
      | Return data =>
          serve Json_record (update_processed_agent_data record_id data)
      | Raise e => unprocessable "body.agent_data.timestamp" (Some e)
      end
  | None => unprocessable "query.record_id" None
  end.

Definition DELETE_item (processed_agent_data_id : string)
  (record_id : option Z) : App -> Response * App :=
  match record_id with
  | Some record_id =>
      serve Json_record (delete_processed_agent_data record_id)
  | None => unprocessable "query.record_id" None
  end.
End Routes.

(** ** The column types of the table *)

Section Columns.
(** What the engine makes of the eight values bound to an INSERT or UPDATE
    under the column types the table declares ([String], [Integer],
    [Float], [DateTime]): the values as the table will hold them, or the
    error it raises. The engine is not code of this repository, so it is a
    parameter; with [Return] for it the table holds the values as bound,
    which is what [create_processed_agent_data] and
    [update_processed_agent_data] above do. *)
Variable columns : new_data.t -> Result new_data.t.

(** A statement that binds [v]: the server has to be reached, then the
    column types are applied, then the statement runs on the result. *)
Definition through_columns (v : new_data.t)
  (statement : new_data.t -> M Session unit) : M Session unit :=
  fun db =>
    if reachable (engine db)
    then match columns v with
         | Return stored => statement stored db
         | Raise e => (Raise e, db)
         end
    else (Raise OperationalError, db).

Definition create_through_columns (data : ProcessedAgentData.t)
  : M Session (gmap string string) :=
  try_except
    (through_columns (values_of data) execute_insert ;;
     commit ;;
     ret {[ "message" := "OK" ]})
    except_Exception.

Definition update_through_columns
  (record_id : Z) (data : ProcessedAgentData.t)
  : M Session ProcessedAgentDataInDB.t :=
  try_except
    (let new_data := values_of data in
     through_columns new_data (execute_update record_id) ;;
     commit ;;
     ret (ProcessedAgentDataInDB.mk
            record_id
            (new_data.road_state new_data) (new_data.user_id new_data)
            (new_data.x new_data) (new_data.y new_data) (new_data.z new_data)
            (new_data.latitude new_data) (new_data.longitude new_data)
            (new_data.timestamp new_data)))
    except_Exception.

Variable datetime_field : value -> option datetime.

Definition POST_through_columns (body : Body.t) : App -> Response * App :=
  match validate datetime_field body with
  | Return data => serve Json_message (create_through_columns data)
  | Raise e => unprocessable "body.agent_data.timestamp" (Some e)
  end.

Definition PUT_through_columns (processed_agent_data_id : string)
  (record_id : option Z) (body : Body.t) : App -> Response * App :=
  match record_id with
  | Some record_id =>
      match validate datetime_field body with
      | Return data =>
          serve Json_record (update_through_columns record_id data)
      | Raise e => unprocessable "body.agent_data.timestamp" (Some e)
      end
  | None => unprocessable "query.record_id" None
  end.
End Columns.

(** ** Sample data *)

(** The functions of this part stand in for library and engine code
    where an example needs a concrete one; the theorems are stated for any
    such function. *)

Definition digit (a : ascii) : option Z :=
  let n := Z.of_nat (nat_of_ascii a) in
  if decide (48 ≤ n ≤ 57)%Z then Some (n - 48)%Z else None.

Fixpoint number (acc : Z) (l : list ascii) : option Z :=
  match l with
  | [] => Some acc
  | a :: l' =>
      match digit a with
      | Some d => number (10 * acc + d)%Z l'
      | None => None
      end
  end.

Definition field (l : list ascii) (start len : nat) : option Z :=
  number 0 (take len (drop start l)).

Definition separator (l : list ascii) (i : nat) (ch : ascii) : bool :=
  match l !! i with
  | Some a => bool_decide (a = ch)
  | None => false
  end.

Definition is_leap (y : Z) : bool :=
  bool_decide (y mod 4 = 0)%Z
  && (negb (bool_decide (y mod 100 = 0)%Z) || bool_decide (y mod 400 = 0)%Z).

Definition days_in_month (y m : Z) : Z :=
  if bool_decide (m = 2)%Z then (if is_leap y then 29%Z else 28%Z)
  else if bool_decide (m = 4 ∨ m = 6 ∨ m = 9 ∨ m = 11)%Z then 30%Z
  else 31%Z.

(** Days from 1970-01-01 to a date of the proleptic Gregorian calendar,
    and the date a number of days after 1970-01-01. *)
Definition days_from_civil (y m d : Z) : Z :=
  (let y' := if bool_decide (m <= 2) then y - 1 else y in
   let era := y' / 400 in
   let yoe := y' - era * 400 in
   let mp := if bool_decide (m > 2) then m - 3 else m + 9 in
   let doy := (153 * mp + 2) / 5 + d - 1 in
   let doe := yoe * 365 + yoe / 4 - yoe / 100 + doy in
   era * 146097 + doe - 719468)%Z.

Definition civil_from_days (days : Z) : Z * Z * Z :=
  (let z := days + 719468 in
   let era := z / 146097 in
   let doe := z - era * 146097 in
   let yoe := (doe - doe / 1460 + doe / 36524 - doe / 146096) / 365 in
   let doy := doe - (365 * yoe + yoe / 4 - yoe / 100) in
   let mp := (5 * doy + 2) / 153 in
   let d := doy - (153 * mp + 2) / 5 + 1 in
   let m := if bool_decide (mp < 10) then mp + 3 else mp - 9 in
   let y := yoe + era * 400 in
   (if bool_decide (m <= 2) then y + 1 else y, m, d))%Z.

(** What follows the seconds: nothing, or a UTC offset [+HH:MM] or
    [-HH:MM], in minutes. *)
Definition offset_suffix (l : list ascii) : option (option Z) :=
  match l with
  | [] => Some None
  | sign :: rest =>
      if bool_decide (length rest = 5%nat) && separator rest 2 ":"%char
      then
        match field rest 0 2, field rest 3 2 with
        | Some h, Some m =>
            if bool_decide (h < 24 ∧ m < 60)%Z
            then
              if bool_decide (sign = "+"%char) then Some (Some (60 * h + m)%Z)
              else if bool_decide (sign = "-"%char)
                   then Some (Some (- (60 * h + m))%Z)
                   else None
            else None
        | _, _ => None
        end
      else None
  end.

(** A parser for the form [YYYY-MM-DDTHH:MM:SS] with an optional UTC
    offset, one of the forms [datetime.fromisoformat] accepts. *)
Definition fromisoformat_seconds (s : string) : option datetime :=
  let l := String.list_ascii_of_string s in
  let date := take 19 l in
  if bool_decide (length date = 19%nat)
     && separator date 4 "-"%char && separator date 7 "-"%char
     && separator date 10 "T"%char
     && separator date 13 ":"%char && separator date 16 ":"%char
  then
    match field date 0 4, field date 5 2, field date 8 2,
          field date 11 2, field date 14 2, field date 17 2,
          offset_suffix (drop 19 l) with
    | Some y, Some mo, Some d, Some h, Some mi, Some sec, Some offset =>
        if bool_decide (1 ≤ y ∧ 1 ≤ mo ≤ 12 ∧ 1 ≤ d ≤ days_in_month y mo
                        ∧ h < 24 ∧ mi < 60 ∧ sec < 60)%Z
        then Some (mk_datetime y mo d h mi sec 0 offset)
        else None
    | _, _, _, _, _, _, _ => None
    end
  else None.

(** Unix time as pydantic reads a number: seconds, or milliseconds above
    2e10 in absolute value; the result is in UTC. *)
Definition from_unix_seconds (t micro : Z) : datetime :=
  let '(y, m, d) := civil_from_days (t / 86400) in
  let rest := (t mod 86400)%Z in
  mk_datetime y m d (rest / 3600) (rest mod 3600 / 60) (rest mod 60) micro
              (Some 0%Z).

Definition from_unix (n : Z) : datetime :=
  if bool_decide (Z.abs n > 20000000000)%Z
  then from_unix_seconds (n / 1000) (n mod 1000 * 1000)
  else from_unix_seconds n 0.

(** A stand-in for pydantic's validation of a [datetime] field: a datetime
    as it is, a text in the form above or made of digits only (Unix time),
    a number (Unix time); anything else is refused. *)
Definition lax_datetime (v : value) : option datetime :=
  match v with
  | VDatetime d => Some d
  | VStr s =>
      match fromisoformat_seconds s with
      | Some d => Some d
      | None =>
          let l := String.list_ascii_of_string s in
          if bool_decide (l <> []) then from_unix <$> number 0 l else None
      end
  | VNumber n => Some (from_unix n)
  | VNone => None
  end.

(** A [DateTime] column has no time zone: a value with a UTC offset is
    held as the naive value of the same instant in the session's zone,
    here UTC. *)
Definition naive_utc (d : datetime) : datetime :=
  match utcoffset d with
  | None => d
  | Some offset =>
      let minutes :=
        (days_from_civil (year d) (month d) (day d) * 1440
         + hour d * 60 + minute d - offset)%Z in
      let '(y, m, d') := civil_from_days (minutes / 1440) in
      let rest := (minutes mod 1440)%Z in
      mk_datetime y m d' (rest / 60) (rest mod 60) (second d) (microsecond d)
                  None
  end.

(** A float reaches the server as a numeric literal, which has no
    negative zero. *)
Definition without_negative_zero (f : float) : float :=
  if bool_decide (f = 0x8000000000000000)%Z then 0%Z else f.

(** A stand-in for the engine's column types: [Integer] is 32-bit,
    [String] holds no NUL character, [Float] and [DateTime] as above. *)
Definition sample_columns (v : new_data.t) : Result new_data.t :=
  if bool_decide (-2147483648 ≤ new_data.user_id v < 2147483648)%Z
     && negb (bool_decide
                ("000"%char
                 ∈ String.list_ascii_of_string (new_data.road_state v)))
  then
    Return (new_data.mk
              (new_data.road_state v) (new_data.user_id v)
              (without_negative_zero (new_data.x v))
              (without_negative_zero (new_data.y v))
              (without_negative_zero (new_data.z v))
              (without_negative_zero (new_data.latitude v))
              (without_negative_zero (new_data.longitude v))
              (naive_utc (new_data.timestamp v)))
  else Raise DataError.

(** The spec's scenario: a pothole reported by agent 7. *)
Definition pothole_body (timestamp : value) : Body.t :=
  Body.mk "pothole"
    (Body.mk_agent_data 7
       (AccelerometerData.mk 0x3FB999999999999A%Z 0x3FC999999999999A%Z
                             0x402399999999999A%Z)
       (GpsData.mk 0x40490CCCCCCCCCCD%Z 0x403E800000000000%Z)
       timestamp).

Definition new_year_2024 : datetime := mk_datetime 2024 1 1 0 0 0 0 None.

(** An empty, reachable database whose key sequence starts at 1. *)
Definition empty_database : Database := mk_Database [] 1 true [].

(** The process right after start-up: no rows, no subscribers. *)
Definition startup : App := mk_App empty_database ∅ ∅.

(** The same report from an agent whose number does not fit 32 bits. *)
Definition big_user_body : Body.t :=
  Body.mk "pothole"
    (Body.mk_agent_data 2147483648
       (AccelerometerData.mk 0x3FB999999999999A%Z 0x3FC999999999999A%Z
                             0x402399999999999A%Z)
       (GpsData.mk 0x40490CCCCCCCCCCD%Z 0x403E800000000000%Z)
       (VStr "2024-01-01T00:00:00")).

(** The same report once validated. *)
Definition pothole : ProcessedAgentData.t :=
  ProcessedAgentData.mk "pothole"
    (AgentData.mk 7
       (AccelerometerData.mk 0x3FB999999999999A%Z 0x3FC999999999999A%Z
                             0x402399999999999A%Z)
       (GpsData.mk 0x40490CCCCCCCCCCD%Z 0x403E800000000000%Z)
       new_year_2024).

(** A second report, used as the new content of an update. *)
Definition smooth : ProcessedAgentData.t :=
  ProcessedAgentData.mk "smooth"
    (AgentData.mk 8
       (AccelerometerData.mk 0%Z 0%Z 0x402399999999999A%Z)
       (GpsData.mk 0x40490CCCCCCCCCCD%Z 0x403E800000000000%Z)
       (mk_datetime 2024 1 2 12 30 0 0 None)).

Definition smooth_body : Body.t :=
  Body.mk "smooth"
    (Body.mk_agent_data 8
       (AccelerometerData.mk 0%Z 0%Z 0x402399999999999A%Z)
       (GpsData.mk 0x40490CCCCCCCCCCD%Z 0x403E800000000000%Z)
       (VStr "2024-01-02T12:30:00")).

(** The process after one successful POST of the pothole report. *)
Definition one_pothole : App :=
  mk_App
    (mk_Database [row_of 1 (values_of pothole)] 2 true
                 [INSERT (values_of pothole); COMMIT])
    ∅ ∅.

(** The process with websocket 1 accepted and subscribed. *)
Definition one_subscriber : App := snd (websocket_endpoint_accept 1%nat startup).

(** Websocket 1 subscribed, then its peer gone without the handler having
    seen the disconnect yet. *)
Definition lost_subscriber : App := peer_closes 1%nat one_subscriber.

(** Websockets 1, 2 and 3 subscribed; the peer of 3 is gone. *)
Definition three_subscribers : App :=
  peer_closes 3%nat
    (snd (websocket_endpoint_accept 3%nat
            (snd (websocket_endpoint_accept 2%nat one_subscriber)))).

(** [json.dumps] on the empty dict. *)
Definition dumps_empty_dict (_ : unit) : Result string := Return "{}".

(** ** Comparing a record with a request *)

(** A returned record carries the eight fields of a request model. *)
Definition carries (record : ProcessedAgentDataInDB.t)
  (data : ProcessedAgentData.t) : Prop :=
  let agent := ProcessedAgentData.agent_data data in
  ProcessedAgentDataInDB.road_state record = ProcessedAgentData.road_state data
  /\ ProcessedAgentDataInDB.user_id record = AgentData.user_id agent
  /\ ProcessedAgentDataInDB.x record
     = AccelerometerData.x (AgentData.accelerometer agent)
  /\ ProcessedAgentDataInDB.y record
     = AccelerometerData.y (AgentData.accelerometer agent)
  /\ ProcessedAgentDataInDB.z record
     = AccelerometerData.z (AgentData.accelerometer agent)
  /\ ProcessedAgentDataInDB.latitude record
     = GpsData.latitude (AgentData.gps agent)
  /\ ProcessedAgentDataInDB.longitude record
     = GpsData.longitude (AgentData.gps agent)
  /\ ProcessedAgentDataInDB.timestamp record = AgentData.timestamp agent.

(** ** Requests and traces *)

(** The five HTTP routes the decorators declare. *)
Inductive Request :=
| GET_one (processed_agent_data_id : string) (record_id : option Z)
| POST_one (body : Body.t)
| GET_all
| PUT_one (processed_agent_data_id : string) (record_id : option Z)
          (body : Body.t)
| DELETE_one (processed_agent_data_id : string) (record_id : option Z).

(** The route a request is dispatched to. *)
Definition handle (datetime_field : value -> option datetime) (req : Request)
  : App -> Response * App :=
  match req with
  | GET_one segment record_id => GET_item segment record_id
  | POST_one body => POST_collection datetime_field body
  | GET_all => GET_collection
  | PUT_one segment record_id body =>
      PUT_item datetime_field segment record_id body
  | DELETE_one segment record_id => DELETE_item segment record_id
  end.

(** Requests served one after the other, each paired with its answer. *)
Fixpoint run (datetime_field : value -> option datetime)
  (reqs : list Request) (app : App) : list (Request * Response) * App :=
  match reqs with
  | [] => ([], app)
  | req :: reqs' =>
      let '(response, app1) := handle datetime_field req app in
      let '(trace, app2) := run datetime_field reqs' app1 in
      ((req, response) :: trace, app2)
  end.

Definition is_POST (req : Request) : bool :=
  match req with POST_one _ => true | _ => false end.

Definition is_DELETE (req : Request) : bool :=
  match req with DELETE_one _ _ => true | _ => false end.

(** How many requests of a kind were answered 200. *)
Fixpoint succeeded (kind : Request -> bool)
  (trace : list (Request * Response)) : nat :=
  match trace with
  | [] => 0%nat
  | (req, response) :: trace' =>
      if kind req && bool_decide (status response = 200%Z)
      then S (succeeded kind trace')
      else succeeded kind trace'
  end.

(** [json.dumps] on an object it cannot serialise. *)
Definition dumps_unserialisable (_ : unit) : Result string :=
  Raise (TypeError "Object of type ProcessedAgentData is not JSON serializable").

(** The database of [one_pothole] with the server out of reach. *)
Definition one_pothole_offline : App :=
  mk_App
    (mk_Database [row_of 1 (values_of pothole)] 2 false
                 [INSERT (values_of pothole); COMMIT])
    ∅ ∅.

(** ** The process over time *)

(** What can happen to the process: a peer opens [/ws/] with a new
    websocket and [websocket_endpoint] runs up to its first
    [receive_text]; the peer of an endpoint that is waiting there goes
    away, so [receive_text] raises and the [except] branch runs; an HTTP
    request is served. *)
Inductive Event :=
| Connect (websocket : WebSocket)
| Disconnect (websocket : WebSocket)
| Serve (req : Request).

(** The process together with the websockets whose endpoint is waiting in
    [receive_text]. *)
Record Process := mk_Process {
  state : App;
  receiving : gset WebSocket
}.

(** An event can only happen when the code is at the matching point: the
    except branch of an endpoint runs only for an endpoint that is
    waiting, and a connecting websocket is an object not seen before. *)
Definition enabled (ev : Event) (p : Process) : Prop :=
  match ev with
  | Connect websocket => connections (state p) !! websocket = None
  | Disconnect websocket => websocket ∈ receiving p
  | Serve _ => True
  end.

Definition step (datetime_field : value -> option datetime) (ev : Event)
  (p : Process) : Result unit * Process :=
  match ev with
  | Connect websocket =>
      let '(r, app) := websocket_endpoint_accept websocket (state p) in
      (r, mk_Process app ({[ websocket ]} ∪ receiving p))
  | Disconnect websocket =>
      let '(r, app) := websocket_endpoint_disconnect websocket (state p) in
      (r, mk_Process app (receiving p ∖ {[ websocket ]}))
  | Serve req =>
      (Return tt,
       mk_Process (snd (handle datetime_field req (state p))) (receiving p))
  end.

(** A sequence of events, each enabled when it happens. *)
Fixpoint possible (datetime_field : value -> option datetime)
  (evs : list Event) (p : Process) : Prop :=
  match evs with
  | [] => True
  | ev :: evs' =>
      enabled ev p
      /\ possible datetime_field evs' (snd (step datetime_field ev p))
  end.

(** The outcome of each event of a sequence, and the process after it. *)
Fixpoint steps (datetime_field : value -> option datetime)
  (evs : list Event) (p : Process) : list (Result unit) * Process :=
  match evs with
  | [] => ([], p)
  | ev :: evs' =>
      let '(r, p1) := step datetime_field ev p in
      let '(rs, p2) := steps datetime_field evs' p1 in
      (r :: rs, p2)
  end.

(** * Properties *)

(** ** Running the handlers on a fresh session *)

Ltac run_handler H :=
  cbv [read_processed_agent_data create_processed_agent_data
       list_processed_agent_data update_processed_agent_data
       delete_processed_agent_data except_Exception try_except bind ret raise
       execute_select execute_insert execute_update execute_delete query_all
       commit send_statement SessionLocal fetchone logged];
  cbn [engine txn rows id_seq reachable received];
  rewrite ?H; cbn [engine txn rows id_seq reachable received].

Lemma read_unreachable d record_id :
  reachable d = false ->
  read_processed_agent_data record_id (SessionLocal d)
  = (Raise (HTTPException 500 (Str OperationalError)), SessionLocal d).
Proof. intros H. run_handler H. reflexivity. Qed.

Lemma read_reachable d record_id :
  reachable d = true ->
  read_processed_agent_data record_id (SessionLocal d)
  = (match head (where_id record_id (rows d)) with
     | Some record => Return (in_db record)
     | None =>
         Raise (HTTPException 500
                  (Str (HTTPException 404 (Text "Record not found"))))
     end,
     mk_Session (logged [SELECT_WHERE_ID record_id] d) (rows d)).
Proof.
  intros H. run_handler H.
  destruct (head _); reflexivity.
Qed.

Lemma update_reachable d record_id data :
  reachable d = true ->
  update_processed_agent_data record_id data (SessionLocal d)
  = (Return (in_db (row_of record_id (values_of data))),
     let table := set_values record_id (values_of data) (rows d) in
     mk_Session
       (mk_Database table (id_seq d) true
          (received d
           ++ [UPDATE_WHERE_ID record_id (values_of data); COMMIT]))
       table).
Proof.
  intros H. run_handler H. rewrite <- app_assoc. reflexivity.
Qed.

Lemma delete_reachable d record_id :
  reachable d = true ->
  delete_processed_agent_data record_id (SessionLocal d)
  = (match head (where_id record_id (rows d)) with
     | Some row => Return (in_db row)
     | None =>
         Raise (HTTPException 500
                  (Str (TypeError "'NoneType' object is not subscriptable")))
     end,
     let table := where_not_id record_id (rows d) in
     mk_Session
       (mk_Database table (id_seq d) true
          (received d
           ++ [SELECT_WHERE_ID record_id; DELETE_WHERE_ID record_id; COMMIT]))
       table).
Proof.
  intros H. run_handler H. rewrite <- !app_assoc. cbn [app].
  destruct (head _); reflexivity.
Qed.

Lemma create_reachable d data :
  reachable d = true ->
  Forall (fun r => c.id r <> id_seq d) (rows d) ->
  create_processed_agent_data data (SessionLocal d)
  = (Return {[ "message" := "OK" ]},
     let table := (rows d ++ [row_of (id_seq d) (values_of data)])%list in
     mk_Session
       (mk_Database table (id_seq d + 1) true
          (received d ++ [INSERT (values_of data); COMMIT]))
       table).
Proof.
  intros H Hfresh. run_handler H.
  destruct (decide _) as [Hex | _].
  - exfalso. apply Exists_exists in Hex as (r & Hin & Hid).
    rewrite Forall_forall in Hfresh. exact (Hfresh r Hin Hid).
  - cbn [engine txn rows id_seq reachable received].
    rewrite <- app_assoc. reflexivity.
Qed.

Lemma create_collision d data :
  reachable d = true ->
  Exists (fun r => c.id r = id_seq d) (rows d) ->
  create_processed_agent_data data (SessionLocal d)
  = (Raise (HTTPException 500 (Str IntegrityError)),
     mk_Session
       (mk_Database (rows d) (id_seq d + 1) true
          (received d ++ [INSERT (values_of data)]))
       (rows d)).
Proof.
  intros H Hex. run_handler H.
  destruct (decide _) as [_ | Hn]; [reflexivity | contradiction].
Qed.

Lemma create_unreachable d data :
  reachable d = false ->
  create_processed_agent_data data (SessionLocal d)
  = (Raise (HTTPException 500 (Str OperationalError)), SessionLocal d).
Proof. intros H. run_handler H. reflexivity. Qed.

(** ** The table and its primary key *)

Lemma where_id_absent record_id (table : list Row) :
  record_id ∉ c.id <$> table -> where_id record_id table = [].
Proof.
  unfold where_id. induction table as [| r table IH]; intros Hn; [done |].
  rewrite fmap_cons in Hn. apply not_elem_of_cons in Hn as [Hne Hn].
  rewrite filter_cons_False by congruence. auto.
Qed.

Lemma where_id_present (table : list Row) row :
  NoDup (c.id <$> table) -> row ∈ table ->
  where_id (c.id row) table = [row].
Proof.
  unfold where_id. induction table as [| r table IH]; intros Hnd Hin.
  - by apply elem_of_nil in Hin.
  - rewrite fmap_cons in Hnd. apply NoDup_cons in Hnd as [Hr Hnd].
    apply elem_of_cons in Hin as [-> | Hin].
    + rewrite filter_cons_True by done.
      f_equal. by apply (where_id_absent (c.id r) table).
    + rewrite filter_cons_False; [by apply IH |].
      intros Heq. apply Hr. rewrite Heq. by apply list_elem_of_fmap_2.
Qed.

Lemma set_values_ids record_id v (table : list Row) :
  c.id <$> set_values record_id v table = c.id <$> table.
Proof.
  unfold set_values. induction table as [| r table IH]; [done |].
  cbn. rewrite IH. f_equal. by destruct (decide _).
Qed.

Lemma set_values_where record_id v (table : list Row) :
  where_id record_id (set_values record_id v table)
  = (fun _ => row_of record_id v) <$> where_id record_id table.
Proof.
  unfold where_id, set_values.
  induction table as [| r table IH]; [done |]. cbn [map].
  destruct (decide (c.id r = record_id)) as [Heq | Hne].
  - rewrite !filter_cons_True by done. cbn. rewrite IH. by rewrite Heq.
  - rewrite !filter_cons_False by done. apply IH.
Qed.

Lemma set_values_other record_id v (table : list Row) r :
  r ∈ table -> c.id r <> record_id -> r ∈ set_values record_id v table.
Proof.
  intros Hin Hne. unfold set_values. apply list_elem_of_In, in_map_iff.
  exists r. split; [| by apply list_elem_of_In].
  by destruct (decide _).
Qed.

Lemma where_not_id_ids record_id (table : list Row) :
  record_id ∉ c.id <$> where_not_id record_id table.
Proof.
  unfold where_not_id. intros Hin.
  apply list_elem_of_fmap in Hin as (r & -> & Hr).
  by apply list_elem_of_filter in Hr as [Hne _].
Qed.

Lemma where_not_id_absent record_id (table : list Row) :
  record_id ∉ c.id <$> table -> where_not_id record_id table = table.
Proof.
  unfold where_not_id. induction table as [| r table IH]; intros Hn; [done |].
  rewrite fmap_cons in Hn. apply not_elem_of_cons in Hn as [Hne Hn].
  rewrite filter_cons_True by congruence. f_equal. auto.
Qed.

(** ** What each route answers *)

Lemma GET_item_reachable segment record_id app :
  reachable (database app) = true ->
  GET_item segment (Some record_id) app
  = (match head (where_id record_id (rows (database app))) with
     | Some record => mk_Response 200 (Json_record (in_db record))
     | None => not_found_as_500
     end,
     with_database (logged [SELECT_WHERE_ID record_id] (database app)) app).
Proof.
  intros H. cbv [GET_item serve connect_to_db].
  rewrite (read_reachable _ _ H). destruct (head _); reflexivity.
Qed.

Lemma GET_item_unreachable segment record_id app :
  reachable (database app) = false ->
  GET_item segment (Some record_id) app
  = (mk_Response 500 (Json_detail (Str OperationalError)),
     with_database (database app) app).
Proof.
  intros H. cbv [GET_item serve connect_to_db].
  rewrite (read_unreachable _ _ H). reflexivity.
Qed.

Lemma PUT_item_reachable parse segment record_id body data app :
  validate parse body = Return data ->
  reachable (database app) = true ->
  PUT_item parse segment (Some record_id) body app
  = (mk_Response 200 (Json_record (in_db (row_of record_id (values_of data)))),
     with_database
       (mk_Database
          (set_values record_id (values_of data) (rows (database app)))
          (id_seq (database app)) true
          (received (database app)
           ++ [UPDATE_WHERE_ID record_id (values_of data); COMMIT]))
       app).
Proof.
  intros Hv H. cbv [PUT_item serve connect_to_db]. rewrite Hv.
  rewrite (update_reachable _ _ _ H). reflexivity.
Qed.

Lemma DELETE_item_reachable segment record_id app :
  reachable (database app) = true ->
  DELETE_item segment (Some record_id) app
  = (match head (where_id record_id (rows (database app))) with
     | Some row => mk_Response 200 (Json_record (in_db row))
     | None => type_error_as_500
     end,
     with_database
       (mk_Database
          (where_not_id record_id (rows (database app)))
          (id_seq (database app)) true
          (received (database app)
           ++ [SELECT_WHERE_ID record_id; DELETE_WHERE_ID record_id; COMMIT]))
       app).
Proof.
  intros H. cbv [DELETE_item serve connect_to_db].
  rewrite (delete_reachable _ _ H). destruct (head _); reflexivity.
Qed.

Lemma POST_collection_reachable parse body data app :
  validate parse body = Return data ->
  reachable (database app) = true ->
  id_seq (database app) ∉ ids (database app) ->
  POST_collection parse body app
  = (mk_Response 200 (Json_message {[ "message" := "OK" ]}),
     with_database
       (mk_Database
          (rows (database app)
           ++ [row_of (id_seq (database app)) (values_of data)])%list
          (id_seq (database app) + 1) true
          (received (database app) ++ [INSERT (values_of data); COMMIT]))
       app).
Proof.
  intros Hv H Hfresh. cbv [POST_collection serve connect_to_db]. rewrite Hv.
  rewrite (create_reachable _ _ H); [reflexivity |].
  apply Forall_forall. intros r Hin Heq. apply Hfresh.
  unfold ids. rewrite <- Heq. by apply list_elem_of_fmap_2.
Qed.

Lemma primary_key_fresh d : primary_key d -> id_seq d ∉ ids d.
Proof.
  intros [_ Hlt] Hin. unfold ids in Hin.
  apply list_elem_of_fmap in Hin as (r & Heq & Hr).
  rewrite Forall_forall in Hlt. specialize (Hlt r Hr). lia.
Qed.

(** ** The key constraint is an invariant of the routes *)

Lemma update_unreachable d record_id data :
  reachable d = false ->
  update_processed_agent_data record_id data (SessionLocal d)
  = (Raise (HTTPException 500 (Str OperationalError)), SessionLocal d).
Proof. intros H. run_handler H. reflexivity. Qed.

Lemma delete_unreachable d record_id :
  reachable d = false ->
  delete_processed_agent_data record_id (SessionLocal d)
  = (Raise (HTTPException 500 (Str OperationalError)), SessionLocal d).
Proof. intros H. run_handler H. reflexivity. Qed.

Lemma NoDup_ids_filter (P : Row -> Prop) `{forall r, Decision (P r)}
  (table : list Row) :
  NoDup (c.id <$> table) -> NoDup (c.id <$> filter P table).
Proof.
  induction table as [| r table IH]; [done |].
  rewrite fmap_cons. intros [Hr Hnd]%NoDup_cons.
  destruct (decide (P r)) as [Hp | Hp].
  - rewrite filter_cons_True by done. rewrite fmap_cons.
    apply NoDup_cons. split; [| by apply IH].
    intros Hin. apply Hr.
    apply list_elem_of_fmap in Hin as (r' & -> & Hr').
    apply list_elem_of_filter in Hr' as [_ Hr'].
    by apply list_elem_of_fmap_2.
  - rewrite filter_cons_False by done. by apply IH.
Qed.

Lemma primary_key_startup : primary_key (database startup).
Proof. split; [apply NoDup_nil_2 | apply Forall_nil_2]. Qed.

Lemma primary_key_one_pothole : primary_key (database one_pothole).
Proof.
  split.
  - apply NoDup_singleton.
  - apply Forall_cons. split; [reflexivity | apply Forall_nil_2].
Qed.

Lemma primary_key_GET_item segment record_id app :
  primary_key (database app) ->
  primary_key (database (snd (GET_item segment record_id app))).
Proof.
  intros Hpk. destruct record_id as [record_id |]; [| exact Hpk].
  destruct (reachable (database app)) eqn:H.
  - by rewrite (GET_item_reachable _ _ _ H).
  - by rewrite (GET_item_unreachable _ _ _ H).
Qed.

Lemma primary_key_POST_collection parse body app :
  primary_key (database app) ->
  primary_key (database (snd (POST_collection parse body app))).
Proof.
  intros Hpk. pose proof (primary_key_fresh _ Hpk) as Hfresh.
  destruct (validate parse body) as [data | e] eqn:Hv.
  - destruct (reachable (database app)) eqn:H.
    + rewrite (POST_collection_reachable _ _ _ _ Hv H Hfresh).
      destruct Hpk as [Hnd Hlt]. split.
      * unfold ids in *. cbn [snd database with_database rows].
        rewrite fmap_app. apply NoDup_app. split; [exact Hnd |].
        split; [| apply NoDup_singleton].
        intros i Hi Hi'. apply list_elem_of_singleton in Hi'. subst i.
        by apply Hfresh.
      * cbn [snd database with_database rows id_seq].
        apply Forall_app. split.
        -- eapply Forall_impl; [exact Hlt |]. cbn. intros r Hr. lia.
        -- apply Forall_singleton. cbn. lia.
    + cbv [POST_collection serve connect_to_db]. rewrite Hv.
      by rewrite (create_unreachable _ _ H).
  - cbv [POST_collection]. rewrite Hv. exact Hpk.
Qed.

Lemma primary_key_PUT_item parse segment record_id body app :
  primary_key (database app) ->
  primary_key
    (database (snd (PUT_item parse segment record_id body app))).
Proof.
  intros Hpk. destruct record_id as [record_id |]; [| exact Hpk].
  destruct (validate parse body) as [data | e] eqn:Hv.
  - destruct (reachable (database app)) eqn:H.
    + rewrite (PUT_item_reachable _ _ _ _ _ _ Hv H).
      destruct Hpk as [Hnd Hlt]. split.
      * unfold ids in *. cbn [snd database with_database rows].
        by rewrite set_values_ids.
      * cbn [snd database with_database rows id_seq].
        unfold set_values. apply Forall_forall. intros r Hr.
        apply list_elem_of_In, in_map_iff in Hr as (r0 & <- & Hr0).
        apply list_elem_of_In in Hr0. rewrite Forall_forall in Hlt.
        specialize (Hlt r0 Hr0). by destruct (decide _).
    + cbv [PUT_item serve connect_to_db]. rewrite Hv.
      by rewrite (update_unreachable _ _ _ H).
  - cbv [PUT_item]. rewrite Hv. exact Hpk.
Qed.

Lemma primary_key_DELETE_item segment record_id app :
  primary_key (database app) ->
  primary_key (database (snd (DELETE_item segment record_id app))).
Proof.
  intros Hpk. destruct record_id as [record_id |]; [| exact Hpk].
  destruct (reachable (database app)) eqn:H.
  - rewrite (DELETE_item_reachable _ _ _ H).
    destruct Hpk as [Hnd Hlt]. split.
    + unfold ids in *. cbn [snd database with_database rows].
      by apply NoDup_ids_filter.
    + cbn [snd database with_database rows id_seq].
      unfold where_not_id. apply Forall_forall. intros r Hr.
      apply list_elem_of_filter in Hr as [_ Hr].
      rewrite Forall_forall in Hlt. by apply Hlt.
  - cbv [DELETE_item serve connect_to_db].
    by rewrite (delete_unreachable _ _ H).
Qed.

(** ** Reading, updating and deleting an id that has no row *)

(** C2. Reading an id that has no row does not surface as a 404: the
    [HTTPException] with status 404 is raised inside the [try] block, the
    blanket [except Exception] catches it, and the client receives status
    500, the same status an unreachable database produces. *)
Theorem read_absent_answers_500 segment record_id app :
  reachable (database app) = true ->
  record_id ∉ ids (database app) ->
  fst (GET_item segment (Some record_id) app) = not_found_as_500
  /\ status (fst (GET_item segment (Some record_id) app)) = 500%Z
  /\ forall down, reachable (database down) = false ->
       status (fst (GET_item segment (Some record_id) down))
       = status (fst (GET_item segment (Some record_id) app)).
Proof.
  intros H Habs.
  assert (E : fst (GET_item segment (Some record_id) app) = not_found_as_500).
  { rewrite (GET_item_reachable _ _ _ H).
    by rewrite (where_id_absent _ _ Habs). }
  rewrite E. split; [reflexivity |]. split; [reflexivity |].
  intros down Hdown. by rewrite (GET_item_unreachable _ _ _ Hdown).
Qed.

Lemma read_absent_answers_500_witness :
  reachable (database startup) = true
  /\ (1%Z ∉ ids (database startup))
  /\ fst (GET_item "1" (Some 1%Z) startup) = not_found_as_500.
Proof.
  assert (H1 : reachable (database startup) = true) by reflexivity.
  assert (H2 : 1%Z ∉ ids (database startup)) by (vm_compute; apply not_elem_of_nil).
  split; [exact H1 |]. split; [exact H2 |].
  exact (proj1 (read_absent_answers_500 "1" 1%Z startup H1 H2)).
Defined.

(** C3. Updating an id that has no row answers 200 with a record built
    from the request, although the table holds no such row before or
    after: the handler never looks at how many rows the UPDATE matched. *)
Theorem update_absent_answers_200 parse segment record_id body data app :
  validate parse body = Return data ->
  reachable (database app) = true ->
  record_id ∉ ids (database app) ->
  let '(response, app') :=
    PUT_item parse segment (Some record_id) body app in
  response
  = mk_Response 200 (Json_record (in_db (row_of record_id (values_of data))))
  /\ rows (database app') = rows (database app)
  /\ (record_id ∉ ids (database app')).
Proof.
  intros Hv H Habs. rewrite (PUT_item_reachable _ _ _ _ _ _ Hv H).
  cbn. split; [reflexivity |].
  assert (Hsame : set_values record_id (values_of data) (rows (database app))
                  = rows (database app)).
  { unfold set_values. unfold ids in Habs.
    induction (rows (database app)) as [| r table IH]; [done |].
    rewrite fmap_cons in Habs. apply not_elem_of_cons in Habs as [Hne Habs].
    cbn. rewrite decide_False by congruence. f_equal. auto. }
  rewrite Hsame. split; [reflexivity |]. exact Habs.
Qed.

Lemma update_absent_answers_200_witness :
  validate lax_datetime smooth_body = Return smooth
  /\ reachable (database startup) = true
  /\ (5%Z ∉ ids (database startup))
  /\ fst (PUT_item lax_datetime "5" (Some 5%Z) smooth_body startup)
     = mk_Response 200 (Json_record (in_db (row_of 5 (values_of smooth)))).
Proof.
  assert (H0 : validate lax_datetime smooth_body = Return smooth)
    by reflexivity.
  assert (H1 : reachable (database startup) = true) by reflexivity.
  assert (H2 : 5%Z ∉ ids (database startup)) by apply not_elem_of_nil.
  repeat (split; [assumption |]).
  pose proof (update_absent_answers_200 lax_datetime "5" 5%Z
                smooth_body smooth startup H0 H1 H2) as H.
  destruct (PUT_item _ _ _ _ _) as [response app']. exact (proj1 H).
Defined.

(** C4. Deleting an id that has no row answers 500: [fetchone] gives
    [None], the DELETE and the commit still run, and indexing [None] raises
    [TypeError], which the blanket [except] turns into a server fault. For
    an id that has a row, the row is removed and the answer is the row as
    it was before the delete. *)
Theorem delete_absent_answers_500 segment record_id app :
  reachable (database app) = true ->
  (record_id ∉ ids (database app) ->
   let '(response, app') := DELETE_item segment (Some record_id) app in
   response = type_error_as_500
   /\ rows (database app') = rows (database app))
  /\ (forall row,
        primary_key (database app) ->
        row ∈ rows (database app) -> c.id row = record_id ->
        let '(response, app') := DELETE_item segment (Some record_id) app in
        response = mk_Response 200 (Json_record (in_db row))
        /\ rows (database app')
           = where_not_id record_id (rows (database app))
        /\ (record_id ∉ ids (database app'))
        /\ (row ∉ rows (database app'))).
Proof.
  intros H. rewrite (DELETE_item_reachable _ _ _ H). split.
  - intros Habs. rewrite (where_id_absent _ _ Habs). cbn.
    split; [reflexivity |]. by apply where_not_id_absent.
  - intros row [Hnd _] Hin <-. rewrite (where_id_present _ _ Hnd Hin). cbn.
    split; [reflexivity |]. split; [reflexivity |].
    split; [apply where_not_id_ids |].
    intros Hrow. apply (where_not_id_ids (c.id row) (rows (database app))).
    by apply list_elem_of_fmap_2.
Qed.

Lemma delete_absent_answers_500_witness :
  reachable (database startup) = true
  /\ (1%Z ∉ ids (database startup))
  /\ fst (DELETE_item "1" (Some 1%Z) startup) = type_error_as_500
  /\ reachable (database one_pothole) = true
  /\ fst (DELETE_item "1" (Some 1%Z) one_pothole)
     = mk_Response 200 (Json_record (in_db (row_of 1 (values_of pothole))))
  /\ rows (database (snd (DELETE_item "1" (Some 1%Z) one_pothole))) = [].
Proof.
  assert (H1 : reachable (database startup) = true) by reflexivity.
  assert (H2 : 1%Z ∉ ids (database startup)) by apply not_elem_of_nil.
  assert (H3 : reachable (database one_pothole) = true) by reflexivity.
  split; [exact H1 |]. split; [exact H2 |]. split.
  - pose proof (proj1 (delete_absent_answers_500 "1" 1%Z startup H1) H2) as H.
    destruct (DELETE_item _ _ _) as [response app']. exact (proj1 H).
  - split; [exact H3 |].
    pose proof (proj2 (delete_absent_answers_500 "1" 1%Z one_pothole H3)
                  (row_of 1 (values_of pothole)) primary_key_one_pothole
                  (list_elem_of_here _ _) eq_refl) as H.
    destruct (DELETE_item _ _ _) as [response app'].
    destruct H as (Hr & Hrows & _). split; [exact Hr |].
    cbn [snd]. rewrite Hrows. reflexivity.
Defined.

(** ** Round trips through the table *)

Lemma carries_row_of record_id data :
  carries (in_db (row_of record_id (values_of data))) data.
Proof. repeat split. Qed.

Lemma where_id_nonempty record_id (table : list Row) row :
  row ∈ table -> c.id row = record_id ->
  exists r rest, where_id record_id table = r :: rest.
Proof.
  intros Hin Hid.
  assert (Hf : row ∈ where_id record_id table)
    by (by apply list_elem_of_filter).
  destruct (where_id record_id table) as [| r rest]; [| by eauto].
  by apply elem_of_nil in Hf.
Qed.

Lemma set_values_elem record_id v (table : list Row) r :
  r ∈ set_values record_id v table -> c.id r = record_id ->
  r = row_of record_id v.
Proof.
  unfold set_values. intros Hin Hid.
  apply list_elem_of_In, in_map_iff in Hin as (r0 & Hr & _).
  destruct (decide (c.id r0 = record_id)) as [Heq | Hne].
  - by rewrite <- Hr, Heq.
  - subst r. contradiction.
Qed.

(** *** With the column types *)

Lemma through_columns_unchanged columns v
  (statement : new_data.t -> M Session unit) db :
  columns v = Return v ->
  (reachable (engine db) = false ->
   statement v db = (Raise OperationalError, db)) ->
  through_columns columns v statement db = statement v db.
Proof.
  intros Hc Hdown. unfold through_columns. rewrite Hc.
  destruct (reachable (engine db)) eqn:H; [reflexivity |].
  symmetry. by apply Hdown.
Qed.

Lemma execute_insert_unreachable v db :
  reachable (engine db) = false ->
  execute_insert v db = (Raise OperationalError, db).
Proof.
  intros H. cbv [execute_insert bind send_statement]. by rewrite H.
Qed.

Lemma execute_update_unreachable record_id v db :
  reachable (engine db) = false ->
  execute_update record_id v db = (Raise OperationalError, db).
Proof.
  intros H. cbv [execute_update bind send_statement]. by rewrite H.
Qed.

Lemma bind_run {S A B} (m : M S A) (k : A -> M S B) s :
  bind m k s
  = match m s with
    | (Return a, s') => k a s'
    | (Raise e, s') => (Raise e, s')
    end.
Proof. reflexivity. Qed.

Lemma create_through_columns_unchanged columns data db :
  columns (values_of data) = Return (values_of data) ->
  create_through_columns columns data db
  = create_processed_agent_data data db.
Proof.
  intros Hc. unfold create_through_columns, create_processed_agent_data,
    try_except.
  rewrite (bind_run (through_columns _ _ _)),
          (bind_run (execute_insert _)).
  by rewrite (through_columns_unchanged _ _ _ _ Hc
                (execute_insert_unreachable _ _)).
Qed.

Lemma update_through_columns_unchanged columns record_id data db :
  columns (values_of data) = Return (values_of data) ->
  update_through_columns columns record_id data db
  = update_processed_agent_data record_id data db.
Proof.
  intros Hc. unfold update_through_columns, update_processed_agent_data,
    try_except. cbv zeta.
  rewrite (bind_run (through_columns _ _ _)),
          (bind_run (execute_update _ _)).
  by rewrite (through_columns_unchanged _ _ _ _ Hc
                (execute_update_unreachable _ _ _)).
Qed.

(** On values the columns hold unchanged the two routes that bind values
    act as the handlers written out above. *)
Lemma POST_through_columns_unchanged columns parse body data app :
  validate parse body = Return data ->
  columns (values_of data) = Return (values_of data) ->
  POST_through_columns columns parse body app = POST_collection parse body app.
Proof.
  intros Hv Hc. cbv [POST_through_columns POST_collection]. rewrite Hv.
  cbv [serve connect_to_db].
  by rewrite (create_through_columns_unchanged _ _ _ Hc).
Qed.

Lemma PUT_through_columns_unchanged columns parse segment record_id body data
  app :
  validate parse body = Return data ->
  columns (values_of data) = Return (values_of data) ->
  PUT_through_columns columns parse segment record_id body app
  = PUT_item parse segment record_id body app.
Proof.
  intros Hv Hc. cbv [PUT_through_columns PUT_item].
  destruct record_id as [rid |]; [| reflexivity]. rewrite Hv.
  cbv [serve connect_to_db].
  by rewrite (update_through_columns_unchanged _ _ _ _ Hc).
Qed.

(** C8, as the code has it. For a row present in the table and a request
    whose values the columns hold unchanged, PUT replaces the eight
    non-key columns of that row by one UPDATE statement followed by the
    commit and leaves every id as it was; the answer and a following read
    of the same id both give the id with exactly the new fields, and every
    row stored under that id afterwards is that record. *)
Theorem update_then_read columns parse segment segment' record_id body data
  app row :
  validate parse body = Return data ->
  columns (values_of data) = Return (values_of data) ->
  reachable (database app) = true ->
  row ∈ rows (database app) -> c.id row = record_id ->
  let '(response, app') :=
    PUT_through_columns columns parse segment (Some record_id) body app in
  exists record,
    response = mk_Response 200 (Json_record record)
    /\ fst (GET_item segment' (Some record_id) app')
       = mk_Response 200 (Json_record record)
    /\ ProcessedAgentDataInDB.id record = c.id row
    /\ carries record data
    /\ ids (database app') = ids (database app)
    /\ (forall r, r ∈ rows (database app') -> c.id r = record_id ->
                  in_db r = record)
    /\ (forall r, r ∈ rows (database app) -> c.id r <> record_id ->
                  r ∈ rows (database app'))
    /\ received (database app')
       = (received (database app)
          ++ [UPDATE_WHERE_ID record_id (values_of data); COMMIT])%list.
Proof.
  intros Hv Hc H Hin Hid.
  rewrite (PUT_through_columns_unchanged _ _ _ _ _ _ _ Hv Hc).
  rewrite (PUT_item_reachable _ _ _ _ _ _ Hv H).
  exists (in_db (row_of record_id (values_of data))).
  split; [reflexivity |]. split.
  - rewrite GET_item_reachable by reflexivity. cbn [database with_database rows].
    rewrite set_values_where.
    destruct (where_id_nonempty _ _ _ Hin Hid) as (r & rest & ->).
    reflexivity.
  - split; [by rewrite <- Hid |]. split; [apply carries_row_of |].
    cbn [database with_database rows received]. unfold ids. cbn [rows].
    split; [apply set_values_ids |]. split.
    + intros r Hr Hrid. by rewrite (set_values_elem _ _ _ _ Hr Hrid).
    + split; [| reflexivity]. intros r Hr Hne. by apply set_values_other.
Qed.

Lemma update_then_read_witness :
  validate lax_datetime smooth_body = Return smooth
  /\ sample_columns (values_of smooth) = Return (values_of smooth)
  /\ reachable (database one_pothole) = true
  /\ row_of 1 (values_of pothole) ∈ rows (database one_pothole)
  /\ exists record,
       fst (GET_item "1" (Some 1%Z)
              (snd (PUT_through_columns sample_columns lax_datetime "1"
                      (Some 1%Z) smooth_body one_pothole)))
       = mk_Response 200 (Json_record record)
       /\ ProcessedAgentDataInDB.id record = 1%Z
       /\ carries record smooth.
Proof.
  assert (H0 : validate lax_datetime smooth_body = Return smooth)
    by reflexivity.
  assert (Hc : sample_columns (values_of smooth) = Return (values_of smooth))
    by reflexivity.
  assert (H1 : reachable (database one_pothole) = true) by reflexivity.
  assert (H2 : row_of 1 (values_of pothole) ∈ rows (database one_pothole))
    by apply list_elem_of_here.
  repeat (split; [assumption |]).
  pose proof (update_then_read sample_columns lax_datetime "1" "1" 1%Z
                smooth_body smooth one_pothole _ H0 Hc H1 H2 eq_refl) as H.
  destruct (PUT_through_columns _ _ _ _ _ _) as [response app'].
  destruct H as (record & _ & Hget & Hrid & Hcarries & _).
  exists record. cbn [snd]. auto.
Defined.

(** What a following read returns is what the columns hold, not what was
    sent: an agent number that does not fit the [Integer] column makes the
    update fail with 500 and the read returns the old record; a timestamp
    with a UTC offset is answered as sent and read back without offset. *)
Lemma updated_record_differs_from_request :
  (let '(response, app') :=
     PUT_through_columns sample_columns lax_datetime "1" (Some 1%Z)
       big_user_body one_pothole in
   response = mk_Response 500 (Json_detail (Str DataError))
   /\ fst (GET_item "1" (Some 1%Z) app')
      = mk_Response 200 (Json_record (in_db (row_of 1 (values_of pothole)))))
  /\ (let '(response, app') :=
        PUT_through_columns sample_columns lax_datetime "1" (Some 1%Z)
          (pothole_body (VStr "2024-01-01T00:00:00+02:00")) one_pothole in
      exists answered read_back,
        response = mk_Response 200 (Json_record answered)
        /\ fst (GET_item "1" (Some 1%Z) app')
           = mk_Response 200 (Json_record read_back)
        /\ utcoffset (ProcessedAgentDataInDB.timestamp answered)
           = Some 120%Z
        /\ utcoffset (ProcessedAgentDataInDB.timestamp read_back) = None).
Proof.
  split.
  - vm_compute. split; reflexivity.
  - vm_compute. eexists _, _. repeat split.
Qed.

Lemma POST_collection_outcome parse body data app :
  validate parse body = Return data ->
  status (fst (POST_collection parse body app)) = 200%Z ->
  reachable (database app) = true
  /\ (id_seq (database app) ∉ ids (database app)).
Proof.
  intros Hv Hok. cbv [POST_collection serve connect_to_db] in Hok.
  rewrite Hv in Hok.
  destruct (reachable (database app)) eqn:H.
  - split; [reflexivity |]. intros Hin.
    rewrite create_collision in Hok by
      (try done; unfold ids in Hin;
       apply list_elem_of_fmap in Hin as (r & Heq & Hr);
       apply Exists_exists; eauto).
    discriminate Hok.
  - rewrite (create_unreachable _ _ H) in Hok. discriminate Hok.
Qed.

(** C7, as the code has it. After a POST that answered 200 for a request
    whose values the columns hold unchanged, reading the key the sequence
    gave to the new row returns a record with that id whose eight other
    fields are those of the request. The id is the store's: the answer of
    the POST does not carry it. *)
Theorem create_then_read columns parse segment body data app :
  validate parse body = Return data ->
  columns (values_of data) = Return (values_of data) ->
  status (fst (POST_through_columns columns parse body app)) = 200%Z ->
  let app' := snd (POST_through_columns columns parse body app) in
  let new_id := id_seq (database app) in
  exists record,
    fst (GET_item segment (Some new_id) app')
    = mk_Response 200 (Json_record record)
    /\ ProcessedAgentDataInDB.id record = new_id
    /\ carries record data
    /\ rows (database app')
       = (rows (database app) ++ [row_of new_id (values_of data)])%list.
Proof.
  intros Hv Hc. rewrite (POST_through_columns_unchanged _ _ _ _ _ Hv Hc).
  intros Hok.
  destruct (POST_collection_outcome _ _ _ _ Hv Hok) as [H Hfresh].
  rewrite (POST_collection_reachable _ _ _ _ Hv H Hfresh). cbn [snd].
  exists (in_db (row_of (id_seq (database app)) (values_of data))).
  split; [| by repeat split].
  rewrite GET_item_reachable by reflexivity.
  cbn [database with_database rows]. unfold where_id.
  rewrite filter_app. fold (where_id (id_seq (database app)) (rows (database app))).
  rewrite (where_id_absent _ _ Hfresh).
  rewrite filter_cons_True by reflexivity. reflexivity.
Qed.

Lemma create_then_read_witness :
  validate lax_datetime (pothole_body (VStr "2024-01-01T00:00:00"))
  = Return pothole
  /\ sample_columns (values_of pothole) = Return (values_of pothole)
  /\ status (fst (POST_through_columns sample_columns lax_datetime
                    (pothole_body (VStr "2024-01-01T00:00:00")) startup))
     = 200%Z
  /\ exists record,
       fst (GET_item "1" (Some 1%Z)
              (snd (POST_through_columns sample_columns lax_datetime
                      (pothole_body (VStr "2024-01-01T00:00:00")) startup)))
       = mk_Response 200 (Json_record record)
       /\ carries record pothole.
Proof.
  assert (H0 : validate lax_datetime
                 (pothole_body (VStr "2024-01-01T00:00:00")) = Return pothole)
    by reflexivity.
  assert (Hc : sample_columns (values_of pothole)
               = Return (values_of pothole)) by reflexivity.
  assert (H1 : status (fst (POST_through_columns sample_columns lax_datetime
                              (pothole_body (VStr "2024-01-01T00:00:00"))
                              startup)) = 200%Z)
    by reflexivity.
  repeat (split; [assumption |]).
  destruct (create_then_read sample_columns lax_datetime "1" _ _ startup
              H0 Hc H1) as (record & Hget & _ & Hcarries & _).
  exists record. auto.
Defined.

(** The answer of POST is the dict with the single key [message]: it
    carries no id that a following read could use. *)
Lemma create_answers_message_only :
  fst (POST_collection lax_datetime
         (pothole_body (VStr "2024-01-01T00:00:00")) startup)
  = mk_Response 200 (Json_message {[ "message" := "OK" ]})
  /\ ({[ "message" := "OK" ]} : gmap string string) !! "id" = None.
Proof. split; reflexivity. Qed.

(** A created record read back is what the columns hold, not what was
    sent: the answer of the POST carries no id, and a timestamp sent with
    a UTC offset comes back without one, so it differs from the input. *)
Lemma created_record_differs_from_input :
  let sent := mk_datetime 2024 1 1 0 0 0 0 (Some 120%Z) in
  let '(response, app') :=
    POST_through_columns sample_columns lax_datetime
      (pothole_body (VStr "2024-01-01T00:00:00+02:00")) startup in
  lax_datetime (VStr "2024-01-01T00:00:00+02:00") = Some sent
  /\ response = mk_Response 200 (Json_message {[ "message" := "OK" ]})
  /\ ({[ "message" := "OK" ]} : gmap string string) !! "id" = None
  /\ exists record,
       fst (GET_item "1" (Some 1%Z) app')
       = mk_Response 200 (Json_record record)
       /\ utcoffset (ProcessedAgentDataInDB.timestamp record) = None
       /\ ProcessedAgentDataInDB.timestamp record <> sent.
Proof.
  vm_compute. do 3 (split; [reflexivity |]).
  eexists. split; [reflexivity |]. split; [reflexivity |]. discriminate.
Qed.

(** ** Validation of the timestamp *)

Lemma GET_collection_reachable app :
  reachable (database app) = true ->
  GET_collection app
  = (mk_Response 200 (Json_records (map in_db (rows (database app)))),
     with_database (logged [SELECT_ALL] (database app)) app).
Proof.
  intros H. cbv [GET_collection serve connect_to_db].
  run_handler H. reflexivity.
Qed.

(** A body the field's validation refuses is answered 422 before the
    handler runs: the database receives no statement and the process is
    as it was. *)
Lemma refused_by_the_field_validation parse body app :
  parse (Body.timestamp (Body.agent_data body)) = None ->
  POST_collection parse body app
  = (mk_Response 422
       (Json_validation_error "body.agent_data.timestamp"
          (Some RequestValidationError)), app).
Proof.
  intros Hp. cbv [POST_collection validate unprocessable]. by rewrite Hp.
Qed.

(** C6. A timestamp text that [fromisoformat] refuses is not rejected on
    that account. [check_timestamp] would raise its [ValueError] on it, but
    the function is never run: when the field's own validation accepts the
    text, the POST answers 200 and the row is inserted and committed with
    the timestamp that validation built. *)
Theorem refused_text_is_inserted fromisoformat parse body text d app :
  Body.timestamp (Body.agent_data body) = VStr text ->
  fromisoformat text = None ->
  parse (VStr text) = Some d ->
  reachable (database app) = true ->
  primary_key (database app) ->
  (exists msg,
     check_timestamp fromisoformat (Body.timestamp (Body.agent_data body))
     = Raise (ValueError msg))
  /\ let '(response, app') := POST_collection parse body app in
     response = mk_Response 200 (Json_message {[ "message" := "OK" ]})
     /\ exists row,
          rows (database app') = (rows (database app) ++ [row])%list
          /\ c.timestamp row = d
          /\ received (database app')
             = (received (database app)
                ++ [INSERT (new_data.mk
                              (c.road_state row) (c.user_id row)
                              (c.x row) (c.y row) (c.z row)
                              (c.latitude row) (c.longitude row) d);
                    COMMIT])%list.
Proof.
  intros Hts Hiso Hparse H Hpk. split.
  - rewrite Hts. cbn. rewrite Hiso. eauto.
  - assert (Hv : validate parse body
                 = Return (ProcessedAgentData.mk (Body.road_state body)
                             (AgentData.mk
                                (Body.user_id (Body.agent_data body))
                                (Body.accelerometer (Body.agent_data body))
                                (Body.gps (Body.agent_data body)) d))).
    { unfold validate. by rewrite Hts, Hparse. }
    rewrite (POST_collection_reachable _ _ _ _ Hv H (primary_key_fresh _ Hpk)).
    split; [reflexivity |].
    eexists. cbn [database with_database rows received].
    split; [reflexivity |]. split; reflexivity.
Qed.

Lemma refused_text_is_inserted_witness :
  Body.timestamp (Body.agent_data (pothole_body (VStr "1700000000")))
  = VStr "1700000000"
  /\ fromisoformat_seconds "1700000000" = None
  /\ lax_datetime (VStr "1700000000")
     = Some (mk_datetime 2023 11 14 22 13 20 0 (Some 0%Z))
  /\ reachable (database startup) = true
  /\ primary_key (database startup)
  /\ (exists msg,
        check_timestamp fromisoformat_seconds (VStr "1700000000")
        = Raise (ValueError msg))
  /\ status (fst (POST_collection lax_datetime
                    (pothole_body (VStr "1700000000")) startup)) = 200%Z
  /\ length (rows (database
                     (snd (POST_collection lax_datetime
                             (pothole_body (VStr "1700000000")) startup))))
     = 1%nat.
Proof.
  assert (H0 : Body.timestamp
                 (Body.agent_data (pothole_body (VStr "1700000000")))
               = VStr "1700000000") by reflexivity.
  assert (H1 : fromisoformat_seconds "1700000000" = None) by reflexivity.
  assert (H2 : lax_datetime (VStr "1700000000")
               = Some (mk_datetime 2023 11 14 22 13 20 0 (Some 0%Z)))
    by reflexivity.
  assert (H3 : reachable (database startup) = true) by reflexivity.
  repeat (split; [assumption |]).
  split; [exact primary_key_startup |].
  split.
  - exact (proj1 (refused_text_is_inserted fromisoformat_seconds
                    lax_datetime _ _ _ startup H0 H1 H2 H3
                    primary_key_startup)).
  - split; reflexivity.
Defined.

(** ** Which request parameter names the row *)

(** C10. Read, update and delete select rows by the [record_id] request
    parameter: the statements the database receives carry [record_id] in
    their WHERE clause, and the value of the [{processed_agent_data_id}]
    path segment changes neither the answer nor the resulting state. *)
Theorem record_id_selects_the_row parse segment record_id body data
  app :
  validate parse body = Return data ->
  reachable (database app) = true ->
  (forall other : string,
     GET_item other (Some record_id) app
     = GET_item segment (Some record_id) app
     /\ PUT_item parse other (Some record_id) body app
        = PUT_item parse segment (Some record_id) body app
     /\ DELETE_item other (Some record_id) app
        = DELETE_item segment (Some record_id) app)
  /\ received (database (snd (GET_item segment (Some record_id) app)))
     = (received (database app) ++ [SELECT_WHERE_ID record_id])%list
  /\ received (database
                 (snd (PUT_item parse segment (Some record_id) body
                         app)))
     = (received (database app)
        ++ [UPDATE_WHERE_ID record_id (values_of data); COMMIT])%list
  /\ received (database (snd (DELETE_item segment (Some record_id) app)))
     = (received (database app)
        ++ [SELECT_WHERE_ID record_id; DELETE_WHERE_ID record_id; COMMIT])%list
  /\ fst (GET_item segment (Some record_id) app)
     = match head (where_id record_id (rows (database app))) with
       | Some record => mk_Response 200 (Json_record (in_db record))
       | None => not_found_as_500
       end
  /\ rows (database
             (snd (PUT_item parse segment (Some record_id) body app)))
     = set_values record_id (values_of data) (rows (database app))
  /\ rows (database (snd (DELETE_item segment (Some record_id) app)))
     = where_not_id record_id (rows (database app)).
Proof.
  intros Hv H. split; [by intros other |].
  rewrite (GET_item_reachable _ _ _ H).
  rewrite (PUT_item_reachable _ _ _ _ _ _ Hv H).
  rewrite (DELETE_item_reachable _ _ _ H).
  repeat split.
Qed.

Lemma record_id_selects_the_row_witness :
  validate lax_datetime smooth_body = Return smooth
  /\ reachable (database one_pothole) = true
  /\ fst (GET_item "1" (Some 2%Z) one_pothole) = not_found_as_500
  /\ fst (GET_item "2" (Some 1%Z) one_pothole)
     = mk_Response 200 (Json_record (in_db (row_of 1 (values_of pothole))))
  /\ rows (database (snd (DELETE_item "1" (Some 2%Z) one_pothole)))
     = rows (database one_pothole).
Proof.
  assert (H0 : validate lax_datetime smooth_body = Return smooth)
    by reflexivity.
  assert (H1 : reachable (database one_pothole) = true) by reflexivity.
  repeat (split; [assumption |]).
  pose proof (record_id_selects_the_row lax_datetime "1" 2%Z
                smooth_body smooth one_pothole H0 H1)
    as (_ & _ & _ & _ & Hget & _ & Hdel).
  pose proof (record_id_selects_the_row lax_datetime "2" 1%Z
                smooth_body smooth one_pothole H0 H1)
    as (_ & _ & _ & _ & Hget' & _).
  rewrite Hget, Hget', Hdel. repeat split.
Defined.

(** ** Creating a record while subscribers are connected *)

Lemma POST_collection_frame parse body app :
  subscriptions (snd (POST_collection parse body app))
  = subscriptions app
  /\ connections (snd (POST_collection parse body app))
     = connections app.
Proof.
  cbv [POST_collection serve connect_to_db unprocessable].
  destruct (validate parse body) as [data | e]; [| done].
  by destruct (create_processed_agent_data _ _).
Qed.

(** C1. With websocket 1 subscribed and open, a POST of the pothole report
    answers 200 and commits the row, yet nothing is handed to [send_json]
    on that connection: [create_processed_agent_data] never calls
    [send_data_to_subscribers]. *)
Theorem create_with_subscriber_sends_nothing :
  let '(response, app') :=
    POST_collection lax_datetime
      (pothole_body (VStr "2024-01-01T00:00:00")) one_subscriber in
  (1%nat ∈ subscriptions one_subscriber)
  /\ connections one_subscriber !! 1%nat = Some (mk_Connection true [])
  /\ response = mk_Response 200 (Json_message {[ "message" := "OK" ]})
  /\ rows (database app') = [row_of 1 (values_of pothole)]
  /\ (1%nat ∈ subscriptions app')
  /\ connections app' !! 1%nat = Some (mk_Connection true []).
Proof.
  pose proof (POST_collection_frame lax_datetime
                (pothole_body (VStr "2024-01-01T00:00:00")) one_subscriber)
    as [Hs Hc].
  assert (Hin : 1%nat ∈ subscriptions one_subscriber).
  { cbn. apply elem_of_union_l. by apply elem_of_singleton. }
  assert (Hconn : connections one_subscriber !! 1%nat
                  = Some (mk_Connection true []))
    by (cbn; apply lookup_insert_eq).
  assert (E : POST_collection lax_datetime
                (pothole_body (VStr "2024-01-01T00:00:00")) one_subscriber
              = (mk_Response 200 (Json_message {[ "message" := "OK" ]}),
                 with_database
                   (mk_Database [row_of 1 (values_of pothole)] 2 true
                      [INSERT (values_of pothole); COMMIT])
                   one_subscriber)).
  { rewrite (POST_collection_reachable _ _ pothole) by
      (try reflexivity; apply not_elem_of_nil).
    reflexivity. }
  rewrite E in *. cbn [snd database with_database rows] in *.
  repeat split; try assumption.
Qed.

(** ** The dispatcher *)

Lemma send_json_live websocket obj app :
  live app websocket = true ->
  send_json websocket obj app
  = (Return tt,
     mk_App (database app) (subscriptions app)
       (<[ websocket := mk_Connection true (inbox app websocket ++ [obj])%list ]>
          (connections app))).
Proof.
  unfold live, inbox, send_json.
  destruct (connections app !! websocket) as [conn |]; [| done].
  by intros ->.
Qed.

Lemma send_json_dead websocket obj app :
  live app websocket = false ->
  send_json websocket obj app = (Raise WebSocketDisconnect, app).
Proof.
  unfold live, send_json.
  destruct (connections app !! websocket) as [conn |]; [| done].
  by intros ->.
Qed.

Section Broadcast.
Context {Data : Type} (json_dumps : Data -> Result string).
Variables (data : Data) (text : string).
Hypothesis dumps : json_dumps data = Return text.

Let body (websocket : WebSocket) : M App unit :=
  let* obj := (fun app => (json_dumps data, app)) in
  send_json websocket obj.

Lemma body_live websocket app :
  live app websocket = true ->
  body websocket app
  = (Return tt,
     mk_App (database app) (subscriptions app)
       (<[ websocket := mk_Connection true (inbox app websocket ++ [text])%list ]>
          (connections app))).
Proof.
  intros H. unfold body, bind. rewrite dumps. by apply send_json_live.
Qed.

Lemma body_dead websocket app :
  live app websocket = false ->
  body websocket app = (Raise WebSocketDisconnect, app).
Proof.
  intros H. unfold body, bind. rewrite dumps. by apply send_json_dead.
Qed.

(** The loop over a duplicate-free sequence whose first closed
    connection is [w]. *)
Lemma for_each_stops (pre : list WebSocket) w post : forall app,
  NoDup (pre ++ w :: post) ->
  (forall ws, ws ∈ pre -> live app ws = true) ->
  live app w = false ->
  exists app',
    for_each (pre ++ w :: post) body app = (Raise WebSocketDisconnect, app')
    /\ subscriptions app' = subscriptions app
    /\ database app' = database app
    /\ (forall ws, ws ∈ pre -> inbox app' ws = (inbox app ws ++ [text])%list)
    /\ (forall ws, ws ∉ pre ->
                   connections app' !! ws = connections app !! ws).
Proof.
  induction pre as [| a pre IH]; intros app Hnd Hlive Hdead.
  - exists app. cbn [Datatypes.app for_each]. unfold bind at 1.
    rewrite (body_dead _ _ Hdead).
    do 3 (split; [reflexivity |]). split; [| done].
    intros ws Hin. by apply elem_of_nil in Hin.
  - cbn [Datatypes.app] in Hnd. apply NoDup_cons in Hnd as [Ha Hnd].
    assert (Hla : live app a = true) by (apply Hlive, list_elem_of_here).
    cbn [Datatypes.app for_each]. unfold bind at 1. rewrite (body_live _ _ Hla).
    set (app1 := mk_App _ _ _).
    assert (Hother : forall ws, ws <> a ->
              connections app1 !! ws = connections app !! ws).
    { intros ws Hne. cbn. by rewrite lookup_insert_ne. }
    destruct (IH app1 Hnd) as (app' & Hrun & Hsub & Hdb & Hpre & Hrest).
    + intros ws Hin. unfold live. rewrite Hother.
      * apply Hlive. by apply list_elem_of_further.
      * intros ->. apply Ha. apply elem_of_app. by left.
    + unfold live. rewrite Hother; [exact Hdead |].
      intros ->. apply Ha. apply elem_of_app. right. apply list_elem_of_here.
    + exists app'. split; [exact Hrun |]. split; [by rewrite Hsub |].
      split; [by rewrite Hdb |]. split.
      * intros ws Hin. apply elem_of_cons in Hin as [-> | Hin].
        -- assert (Hn : a ∉ pre).
           { intros Hin. apply Ha. apply elem_of_app. by left. }
           unfold inbox at 1. rewrite (Hrest _ Hn). cbn.
           by rewrite lookup_insert_eq.
        -- rewrite (Hpre _ Hin). unfold inbox. rewrite Hother; [done |].
           intros ->. apply Ha. apply elem_of_app. by left.
      * intros ws Hn. apply not_elem_of_cons in Hn as [Hne Hn].
        rewrite (Hrest _ Hn). by apply Hother.
Qed.

(** The loop when every connection is open. *)
Lemma for_each_all (l : list WebSocket) : forall app,
  NoDup l ->
  (forall ws, ws ∈ l -> live app ws = true) ->
  exists app',
    for_each l body app = (Return tt, app')
    /\ subscriptions app' = subscriptions app
    /\ database app' = database app
    /\ (forall ws, ws ∈ l -> inbox app' ws = (inbox app ws ++ [text])%list)
    /\ (forall ws, ws ∉ l ->
                   connections app' !! ws = connections app !! ws).
Proof.
  induction l as [| a l IH]; intros app Hnd Hlive.
  - exists app. do 3 (split; [reflexivity |]). split; [| done].
    intros ws Hin. by apply elem_of_nil in Hin.
  - apply NoDup_cons in Hnd as [Ha Hnd].
    assert (Hla : live app a = true) by (apply Hlive, list_elem_of_here).
    cbn [for_each]. unfold bind at 1. rewrite (body_live _ _ Hla).
    set (app1 := mk_App _ _ _).
    assert (Hother : forall ws, ws <> a ->
              connections app1 !! ws = connections app !! ws).
    { intros ws Hne. cbn. by rewrite lookup_insert_ne. }
    destruct (IH app1 Hnd) as (app' & Hrun & Hsub & Hdb & Hin' & Hrest).
    + intros ws Hin. unfold live. rewrite Hother.
      * apply Hlive. by apply list_elem_of_further.
      * by intros ->.
    + exists app'. split; [exact Hrun |]. split; [by rewrite Hsub |].
      split; [by rewrite Hdb |]. split.
      * intros ws Hin. apply elem_of_cons in Hin as [-> | Hin].
        -- unfold inbox at 1. rewrite (Hrest _ Ha). cbn.
           by rewrite lookup_insert_eq.
        -- rewrite (Hin' _ Hin). unfold inbox. rewrite Hother; [done |].
           by intros ->.
      * intros ws Hn. apply not_elem_of_cons in Hn as [Hne Hn].
        rewrite (Hrest _ Hn). by apply Hother.
Qed.
End Broadcast.

(** With every subscriber's connection open the loop completes and each
    subscriber is sent the record once. *)
Lemma delivery_to_open_connections {Data : Type}
  (json_dumps : Data -> Result string) data text app :
  json_dumps data = Return text ->
  (forall ws, ws ∈ subscriptions app -> live app ws = true) ->
  exists app',
    send_data_to_subscribers json_dumps data app = (Return tt, app')
    /\ subscriptions app' = subscriptions app
    /\ (forall ws, ws ∈ subscriptions app ->
                   inbox app' ws = (inbox app ws ++ [text])%list)
    /\ (forall ws, ws ∉ subscriptions app ->
                   connections app' !! ws = connections app !! ws).
Proof.
  intros Hd Hlive.
  destruct (for_each_all json_dumps data text Hd
              (elements (subscriptions app)) app)
    as (app' & Hrun & Hsub & _ & Hin & Hout).
  - apply NoDup_elements.
  - intros ws Hws. apply Hlive. by apply elem_of_elements.
  - exists app'. split; [exact Hrun |]. split; [exact Hsub |]. split.
    + intros ws Hws. apply Hin. by apply elem_of_elements.
    + intros ws Hws. apply Hout. by rewrite elem_of_elements.
Qed.

Lemma POST_collection_response parse body app subs conns :
  fst (POST_collection parse body (mk_App (database app) subs conns))
  = fst (POST_collection parse body app).
Proof.
  cbv [POST_collection serve connect_to_db unprocessable].
  destruct (validate parse body) as [data | e]; [| done].
  cbn [database]. by destruct (create_processed_agent_data _ _).
Qed.

(** A failed send is neither swallowed nor followed by an unregister:
    with the only subscriber gone, the dispatcher raises and the
    subscriber is still in the set. *)
Lemma failed_delivery_not_contained :
  let '(r, app') :=
    send_data_to_subscribers dumps_empty_dict tt lost_subscriber in
  r = Raise WebSocketDisconnect /\ 1%nat ∈ subscriptions app'.
Proof.
  assert (E : send_data_to_subscribers dumps_empty_dict tt lost_subscriber
              = (Raise WebSocketDisconnect, lost_subscriber))
    by (vm_compute; reflexivity).
  rewrite E. split; [reflexivity |].
  cbn. apply elem_of_union_l. by apply elem_of_singleton.
Qed.

(** C5, as the code has it. A failed send is not handled inside
    [send_data_to_subscribers]: the exception leaves the loop, the failing
    subscriber stays in the set, the subscribers iterated before it have
    been sent the record once and the ones after it are sent nothing. The
    answer of a POST does not depend on the subscribers or their
    connections. *)
Theorem failed_delivery_leaves_the_loop {Data : Type}
  (json_dumps : Data -> Result string) data text app pre w post
  parse body :
  json_dumps data = Return text ->
  elements (subscriptions app) = (pre ++ w :: post)%list ->
  (forall ws, ws ∈ pre -> live app ws = true) ->
  live app w = false ->
  exists app',
    send_data_to_subscribers json_dumps data app
    = (Raise WebSocketDisconnect, app')
    /\ subscriptions app' = subscriptions app
    /\ (w ∈ subscriptions app')
    /\ (forall ws, ws ∈ pre -> inbox app' ws = (inbox app ws ++ [text])%list)
    /\ (forall ws, ws ∈ w :: post -> inbox app' ws = inbox app ws)
    /\ database app' = database app
    /\ forall subs conns,
         fst (POST_collection parse body
                (mk_App (database app) subs conns))
         = fst (POST_collection parse body app).
Proof.
  intros Hd Hel Hlive Hdead.
  assert (Hnd : NoDup (pre ++ w :: post)).
  { rewrite <- Hel. apply NoDup_elements. }
  destruct (for_each_stops json_dumps data text Hd pre w post app Hnd Hlive Hdead)
    as (app' & Hrun & Hsub & Hdb & Hpre & Hrest).
  exists app'. unfold send_data_to_subscribers. rewrite Hel.
  split; [exact Hrun |]. split; [exact Hsub |]. split.
  { rewrite Hsub. apply elem_of_elements. rewrite Hel.
    apply elem_of_app. right. apply list_elem_of_here. }
  split; [exact Hpre |]. split.
  { intros ws Hin. unfold inbox. rewrite Hrest; [reflexivity |].
    intros Hp. apply NoDup_app in Hnd as (_ & Hdisj & _).
    exact (Hdisj ws Hp Hin). }
  split; [exact Hdb |].
  intros subs conns. apply POST_collection_response.
Qed.

Lemma failed_delivery_leaves_the_loop_witness :
  dumps_empty_dict tt = Return "{}"
  /\ elements (subscriptions three_subscribers) = [2; 3; 1]%nat
  /\ live three_subscribers 2%nat = true
  /\ live three_subscribers 3%nat = false
  /\ exists app',
       send_data_to_subscribers dumps_empty_dict tt three_subscribers
       = (Raise WebSocketDisconnect, app')
       /\ (3%nat ∈ subscriptions app')
       /\ inbox app' 2%nat = ["{}"]
       /\ inbox app' 1%nat = [].
Proof.
  assert (H0 : dumps_empty_dict tt = Return "{}") by reflexivity.
  assert (H1 : elements (subscriptions three_subscribers) = [2; 3; 1]%nat)
    by (vm_compute; reflexivity).
  assert (H2 : live three_subscribers 2%nat = true) by (vm_compute; reflexivity).
  assert (H3 : live three_subscribers 3%nat = false) by (vm_compute; reflexivity).
  repeat (split; [assumption |]).
  destruct (failed_delivery_leaves_the_loop dumps_empty_dict tt "{}"
              three_subscribers [2%nat] 3%nat [1%nat]
              lax_datetime smooth_body H0 H1) as
    (app' & Hrun & _ & Hw & Hpre & Hpost & _).
  - intros ws Hin. apply list_elem_of_singleton in Hin as ->. exact H2.
  - exact H3.
  - exists app'. split; [exact Hrun |]. split; [exact Hw |]. split.
    + rewrite (Hpre 2%nat) by apply list_elem_of_here. reflexivity.
    + rewrite (Hpost 1%nat); [reflexivity |].
      apply list_elem_of_further, list_elem_of_here.
Defined.

(** ** Unregistering *)

(** Removing a websocket that is in the set takes out exactly that one. *)
Lemma remove_present websocket app :
  websocket ∈ subscriptions app ->
  exists app',
    websocket_endpoint_disconnect websocket app = (Return tt, app')
    /\ subscriptions app' = subscriptions app ∖ {[ websocket ]}.
Proof.
  intros Hin. unfold websocket_endpoint_disconnect, set_remove.
  cbn [subscriptions peer_closes]. rewrite decide_True by done. eauto.
Qed.

(** In [websocket_endpoint] the remove follows the add of the same
    websocket, so it finds it. *)
Lemma accept_then_disconnect websocket app :
  exists app',
    websocket_endpoint_disconnect websocket
      (snd (websocket_endpoint_accept websocket app))
    = (Return tt, app')
    /\ subscriptions app' = subscriptions app ∖ {[ websocket ]}.
Proof.
  destruct (remove_present websocket
              (snd (websocket_endpoint_accept websocket app)))
    as (app' & Hrun & Hsub).
  - cbn. apply elem_of_union_l. by apply elem_of_singleton.
  - exists app'. split; [exact Hrun |]. rewrite Hsub. cbn.
    rewrite difference_union_distr_l_L, difference_diag_L.
    apply (left_id_L ∅ (∪)).
Qed.

(** * Further properties of the handlers *)

(** ** Outcomes of a request *)

Lemma with_database_same app : with_database (database app) app = app.
Proof. by destruct app. Qed.

Lemma list_unreachable d :
  reachable d = false ->
  list_processed_agent_data (SessionLocal d)
  = (Raise (HTTPException 500 (Str OperationalError)), SessionLocal d).
Proof. intros H. run_handler H. reflexivity. Qed.

Lemma GET_collection_unreachable app :
  reachable (database app) = false ->
  GET_collection app
  = (mk_Response 500 (Json_detail (Str OperationalError)), app).
Proof.
  intros H. cbv [GET_collection serve connect_to_db].
  rewrite (list_unreachable _ H). cbn. by destruct app.
Qed.

Lemma POST_collection_unreachable parse body data app :
  validate parse body = Return data ->
  reachable (database app) = false ->
  POST_collection parse body app
  = (mk_Response 500 (Json_detail (Str OperationalError)), app).
Proof.
  intros Hv H. cbv [POST_collection serve connect_to_db]. rewrite Hv.
  rewrite (create_unreachable _ _ H). cbn. by destruct app.
Qed.

Lemma PUT_item_unreachable parse segment record_id body data app :
  validate parse body = Return data ->
  reachable (database app) = false ->
  PUT_item parse segment (Some record_id) body app
  = (mk_Response 500 (Json_detail (Str OperationalError)), app).
Proof.
  intros Hv H. cbv [PUT_item serve connect_to_db]. rewrite Hv.
  rewrite (update_unreachable _ _ _ H). cbn. by destruct app.
Qed.

Lemma DELETE_item_unreachable segment record_id app :
  reachable (database app) = false ->
  DELETE_item segment (Some record_id) app
  = (mk_Response 500 (Json_detail (Str OperationalError)), app).
Proof.
  intros H. cbv [DELETE_item serve connect_to_db].
  rewrite (delete_unreachable _ _ H). cbn. by destruct app.
Qed.

Lemma POST_collection_invalid parse body e app :
  validate parse body = Raise e ->
  POST_collection parse body app
  = (mk_Response 422
       (Json_validation_error "body.agent_data.timestamp" (Some e)), app).
Proof. intros Hv. cbv [POST_collection unprocessable]. by rewrite Hv. Qed.

Lemma PUT_item_invalid parse segment record_id body e app :
  validate parse body = Raise e ->
  PUT_item parse segment (Some record_id) body app
  = (mk_Response 422
       (Json_validation_error "body.agent_data.timestamp" (Some e)), app).
Proof. intros Hv. cbv [PUT_item unprocessable]. by rewrite Hv. Qed.

(** X1. Whatever the request and the state of the process, the answer
    has status 200, 422 or 500: every [HTTPException] a handler lets out
    comes from its [except Exception] clause with status 500, so no route
    ever answers 404. *)
Theorem status_is_200_422_or_500 parse req app :
  let s := status (fst (handle parse req app)) in
  s = 200%Z \/ s = 422%Z \/ s = 500%Z.
Proof.
  destruct req as [segment [rid |] | body | | segment [rid |] body
                  | segment [rid |]]; cbn [handle];
    try (right; left; reflexivity).
  - destruct (reachable (database app)) eqn:H.
    + rewrite (GET_item_reachable _ _ _ H).
      destruct (head _); [by left | by right; right].
    + rewrite (GET_item_unreachable _ _ _ H). by right; right.
  - destruct (validate parse body) as [data | e] eqn:Hv.
    + destruct (reachable (database app)) eqn:H.
      * cbv [POST_collection serve connect_to_db]. rewrite Hv.
        destruct (decide (Exists (fun r => c.id r = id_seq (database app))
                                 (rows (database app)))) as [Hex | Hn].
        -- rewrite (create_collision _ _ H Hex). by right; right.
        -- rewrite (create_reachable _ _ H); [by left |].
           apply Forall_forall. intros r Hr Heq. apply Hn.
           apply Exists_exists. eauto.
      * rewrite (POST_collection_unreachable _ _ _ _ Hv H). by right; right.
    + rewrite (POST_collection_invalid _ _ _ _ Hv). by right; left.
  - destruct (reachable (database app)) eqn:H.
    + rewrite (GET_collection_reachable _ H). by left.
    + rewrite (GET_collection_unreachable _ H). by right; right.
  - destruct (validate parse body) as [data | e] eqn:Hv.
    + destruct (reachable (database app)) eqn:H.
      * rewrite (PUT_item_reachable _ _ _ _ _ _ Hv H). by left.
      * rewrite (PUT_item_unreachable _ _ _ _ _ _ Hv H). by right; right.
    + rewrite (PUT_item_invalid _ _ _ _ _ _ Hv). by right; left.
  - destruct (reachable (database app)) eqn:H.
    + rewrite (DELETE_item_reachable _ _ _ H).
      destruct (head _); [by left | by right; right].
    + rewrite (DELETE_item_unreachable _ _ _ H). by right; right.
Qed.

(** X2. With the database out of reach every route whose parameters
    validate answers 500 with the text of the connection error, and the
    process state is exactly what it was. *)
Theorem unreachable_database_answers_500 parse req app :
  reachable (database app) = false ->
  status (fst (handle parse req app)) <> 422%Z ->
  handle parse req app
  = (mk_Response 500 (Json_detail (Str OperationalError)), app).
Proof.
  intros H Hok.
  destruct req as [segment [rid |] | body | | segment [rid |] body
                  | segment [rid |]]; cbn [handle] in *;
    try (exfalso; apply Hok; reflexivity).
  - rewrite (GET_item_unreachable _ _ _ H). by rewrite with_database_same.
  - destruct (validate parse body) as [data | e] eqn:Hv.
    + apply (POST_collection_unreachable _ _ _ _ Hv H).
    + rewrite (POST_collection_invalid _ _ _ _ Hv) in Hok.
      exfalso. by apply Hok.
  - apply (GET_collection_unreachable _ H).
  - destruct (validate parse body) as [data | e] eqn:Hv.
    + apply (PUT_item_unreachable _ _ _ _ _ _ Hv H).
    + rewrite (PUT_item_invalid _ _ _ _ _ _ Hv) in Hok.
      exfalso. by apply Hok.
  - apply (DELETE_item_unreachable _ _ _ H).
Qed.

Lemma unreachable_database_answers_500_witness :
  reachable (database one_pothole_offline) = false
  /\ status (fst (handle lax_datetime (DELETE_one "1" (Some 1%Z))
                    one_pothole_offline)) <> 422%Z
  /\ handle lax_datetime (DELETE_one "1" (Some 1%Z))
        one_pothole_offline
     = (mk_Response 500 (Json_detail (Str OperationalError)),
        one_pothole_offline).
Proof.
  assert (H1 : reachable (database one_pothole_offline) = false)
    by reflexivity.
  assert (H2 : status (fst (handle lax_datetime
                              (DELETE_one "1" (Some 1%Z))
                              one_pothole_offline)) <> 422%Z)
    by (vm_compute; discriminate).
  split; [exact H1 |]. split; [exact H2 |].
  exact (unreachable_database_answers_500 lax_datetime
           (DELETE_one "1" (Some 1%Z)) one_pothole_offline H1 H2).
Defined.

Lemma GET_item_frame segment record_id app :
  rows (database (snd (GET_item segment record_id app)))
  = rows (database app)
  /\ id_seq (database (snd (GET_item segment record_id app)))
     = id_seq (database app)
  /\ subscriptions (snd (GET_item segment record_id app)) = subscriptions app
  /\ connections (snd (GET_item segment record_id app)) = connections app.
Proof.
  destruct record_id as [rid |]; [| by repeat split].
  destruct (reachable (database app)) eqn:H.
  - rewrite (GET_item_reachable _ _ _ H). by repeat split.
  - rewrite (GET_item_unreachable _ _ _ H). by repeat split.
Qed.

Lemma GET_collection_frame app :
  rows (database (snd (GET_collection app))) = rows (database app)
  /\ id_seq (database (snd (GET_collection app))) = id_seq (database app)
  /\ subscriptions (snd (GET_collection app)) = subscriptions app
  /\ connections (snd (GET_collection app)) = connections app.
Proof.
  destruct (reachable (database app)) eqn:H.
  - rewrite (GET_collection_reachable _ H). by repeat split.
  - rewrite (GET_collection_unreachable _ H). by repeat split.
Qed.

(** X3. The two read routes never change the table, the key sequence,
    the subscribers or their connections, whether they answer 200, 422 or
    500. *)
Theorem reads_change_nothing segment record_id app :
  let after_item := snd (GET_item segment record_id app) in
  let after_list := snd (GET_collection app) in
  rows (database after_item) = rows (database app)
  /\ id_seq (database after_item) = id_seq (database app)
  /\ subscriptions after_item = subscriptions app
  /\ connections after_item = connections app
  /\ rows (database after_list) = rows (database app)
  /\ id_seq (database after_list) = id_seq (database app)
  /\ subscriptions after_list = subscriptions app
  /\ connections after_list = connections app.
Proof.
  cbv zeta.
  destruct (GET_item_frame segment record_id app) as (Hi1 & Hi2 & Hi3 & Hi4).
  destruct (GET_collection_frame app) as (Hl1 & Hl2 & Hl3 & Hl4).
  repeat split; assumption.
Qed.

(** ** Traces of requests *)

Lemma primary_key_GET_collection app :
  primary_key (database app) ->
  primary_key (database (snd (GET_collection app))).
Proof.
  intros Hpk. destruct (reachable (database app)) eqn:H.
  - by rewrite (GET_collection_reachable _ H).
  - by rewrite (GET_collection_unreachable _ H).
Qed.

Lemma primary_key_handle parse req app :
  primary_key (database app) ->
  primary_key (database (snd (handle parse req app))).
Proof.
  destruct req; cbn [handle].
  - apply primary_key_GET_item.
  - apply primary_key_POST_collection.
  - apply primary_key_GET_collection.
  - apply primary_key_PUT_item.
  - apply primary_key_DELETE_item.
Qed.

Lemma id_seq_handle parse req app :
  (id_seq (database app)
   <= id_seq (database (snd (handle parse req app))))%Z.
Proof.
  destruct req as [segment [rid |] | body | | segment [rid |] body
                  | segment [rid |]]; cbn [handle]; try reflexivity.
  - destruct (reachable (database app)) eqn:H.
    + by rewrite (GET_item_reachable _ _ _ H).
    + by rewrite (GET_item_unreachable _ _ _ H).
  - destruct (validate parse body) as [data | e] eqn:Hv.
    + destruct (reachable (database app)) eqn:H.
      * cbv [POST_collection serve connect_to_db]. rewrite Hv.
        destruct (decide (Exists (fun r => c.id r = id_seq (database app))
                                 (rows (database app)))) as [Hex | Hn].
        -- rewrite (create_collision _ _ H Hex). cbn. lia.
        -- rewrite (create_reachable _ _ H).
           ++ cbn. lia.
           ++ apply Forall_forall. intros r Hr Heq. apply Hn.
              apply Exists_exists. eauto.
      * by rewrite (POST_collection_unreachable _ _ _ _ Hv H).
    + by rewrite (POST_collection_invalid _ _ _ _ Hv).
  - destruct (reachable (database app)) eqn:H.
    + by rewrite (GET_collection_reachable _ H).
    + by rewrite (GET_collection_unreachable _ H).
  - destruct (validate parse body) as [data | e] eqn:Hv.
    + destruct (reachable (database app)) eqn:H.
      * by rewrite (PUT_item_reachable _ _ _ _ _ _ Hv H).
      * by rewrite (PUT_item_unreachable _ _ _ _ _ _ Hv H).
    + by rewrite (PUT_item_invalid _ _ _ _ _ _ Hv).
  - destruct (reachable (database app)) eqn:H.
    + by rewrite (DELETE_item_reachable _ _ _ H).
    + by rewrite (DELETE_item_unreachable _ _ _ H).
Qed.

Lemma run_cons parse req reqs app :
  run parse (req :: reqs) app
  = ((req, fst (handle parse req app))
       :: fst (run parse reqs (snd (handle parse req app))),
     snd (run parse reqs (snd (handle parse req app)))).
Proof.
  cbn [run]. destruct (handle parse req app) as [response app1].
  cbn [fst snd]. by destruct (run parse reqs app1).
Qed.

Lemma id_seq_run parse reqs : forall app,
  (id_seq (database app)
   <= id_seq (database (snd (run parse reqs app))))%Z.
Proof.
  induction reqs as [| req reqs IH]; intros app; [reflexivity |].
  rewrite run_cons. cbn [snd].
  pose proof (IH (snd (handle parse req app))).
  pose proof (id_seq_handle parse req app). lia.
Qed.

(** X4. The key constraint is an invariant of the service: from a table
    whose ids are pairwise distinct and below the key sequence, any
    sequence of requests leads to such a table again, and the sequence
    never moves backwards. *)
Theorem primary_key_is_invariant parse reqs app :
  primary_key (database app) ->
  primary_key (database (snd (run parse reqs app)))
  /\ (id_seq (database app)
      <= id_seq (database (snd (run parse reqs app))))%Z.
Proof.
  intros Hpk. split; [| apply id_seq_run].
  revert app Hpk. induction reqs as [| req reqs IH]; intros app Hpk.
  - exact Hpk.
  - rewrite run_cons. cbn [snd].
    apply IH. by apply primary_key_handle.
Qed.

Lemma primary_key_is_invariant_witness :
  primary_key (database one_pothole)
  /\ primary_key
       (database
          (snd (run lax_datetime
                  [DELETE_one "1" (Some 1%Z); POST_one smooth_body;
                   PUT_one "2" (Some 2%Z)
                     (pothole_body (VStr "2024-01-01T00:00:00"))]
                  one_pothole))).
Proof.
  split; [exact primary_key_one_pothole |].
  exact (proj1 (primary_key_is_invariant lax_datetime _ one_pothole
                  primary_key_one_pothole)).
Defined.

(** X5. An id is never given twice: whatever requests were served in
    between, including deletes, a later successful POST stores its row
    under an id that no row had before those requests and no row has now. *)
Theorem ids_are_not_reused parse reqs body data app :
  primary_key (database app) ->
  validate parse body = Return data ->
  status (fst (POST_collection parse body
                 (snd (run parse reqs app)))) = 200%Z ->
  let app1 := snd (run parse reqs app) in
  exists new_id,
    rows (database (snd (POST_collection parse body app1)))
    = (rows (database app1) ++ [row_of new_id (values_of data)])%list
    /\ (new_id ∉ ids (database app))
    /\ (new_id ∉ ids (database app1)).
Proof.
  intros Hpk Hv Hok. cbv zeta.
  pose proof (id_seq_run parse reqs app) as Hle.
  set (app1 := snd (run parse reqs app)) in *.
  destruct (POST_collection_outcome _ _ _ _ Hv Hok) as [H Hfresh].
  exists (id_seq (database app1)).
  rewrite (POST_collection_reachable _ _ _ _ Hv H Hfresh).
  split; [reflexivity |]. split; [| exact Hfresh].
  intros Hin. unfold ids in Hin.
  apply list_elem_of_fmap in Hin as (r & Heq & Hr).
  destruct Hpk as [_ Hlt]. rewrite Forall_forall in Hlt.
  specialize (Hlt r Hr). lia.
Qed.

Lemma ids_are_not_reused_witness :
  primary_key (database one_pothole)
  /\ validate lax_datetime smooth_body = Return smooth
  /\ rows (database
             (snd (POST_collection lax_datetime smooth_body
                     (snd (run lax_datetime
                             [DELETE_one "1" (Some 1%Z)] one_pothole)))))
     = [row_of 2 (values_of smooth)].
Proof.
  assert (H0 : validate lax_datetime smooth_body = Return smooth)
    by reflexivity.
  split; [exact primary_key_one_pothole |]. split; [exact H0 |].
  destruct (ids_are_not_reused lax_datetime
              [DELETE_one "1" (Some 1%Z)] smooth_body smooth one_pothole
              primary_key_one_pothole H0 eq_refl) as (new_id & Hrows & _).
  reflexivity.
Defined.

Lemma where_split_length record_id (table : list Row) :
  (length (where_id record_id table) + length (where_not_id record_id table)
   = length table)%nat.
Proof.
  unfold where_id, where_not_id.
  induction table as [| r table IH]; [done |].
  destruct (decide (c.id r = record_id)) as [Heq | Hne].
  - rewrite filter_cons_True by done.
    rewrite (filter_cons_False (fun r => c.id r <> record_id)) by auto.
    cbn. lia.
  - rewrite filter_cons_False by done.
    rewrite (filter_cons_True (fun r => c.id r <> record_id)) by done.
    cbn. lia.
Qed.

Lemma where_id_at_most_one record_id (table : list Row) :
  NoDup (c.id <$> table) ->
  where_id record_id table = []
  \/ exists row, where_id record_id table = [row] /\ row ∈ table
                 /\ c.id row = record_id.
Proof.
  intros Hnd. destruct (where_id record_id table) as [| row rest] eqn:E;
    [by left |].
  right. exists row.
  assert (Hin : row ∈ where_id record_id table)
    by (rewrite E; apply list_elem_of_here).
  apply list_elem_of_filter in Hin as [Hid Hin].
  rewrite <- E, <- Hid. split; [| done].
  by apply where_id_present.
Qed.

Lemma set_values_length record_id v (table : list Row) :
  length (set_values record_id v table) = length table.
Proof. unfold set_values. apply length_map. Qed.

Ltac count_rows :=
  cbn; rewrite ?length_app, ?set_values_length; cbn;
  repeat case_bool_decide; lia.

Lemma handle_row_count parse req app :
  primary_key (database app) ->
  (length (rows (database (snd (handle parse req app))))
   + succeeded is_DELETE [(req, fst (handle parse req app))]
   = length (rows (database app))
     + succeeded is_POST [(req, fst (handle parse req app))])%nat.
Proof.
  intros Hpk.
  destruct req as [segment [rid |] | body | | segment [rid |] body
                  | segment [rid |]]; cbn [handle succeeded is_DELETE is_POST
                                           andb]; try count_rows.
  - destruct (reachable (database app)) eqn:H.
    + rewrite (GET_item_reachable _ _ _ H). count_rows.
    + rewrite (GET_item_unreachable _ _ _ H). count_rows.
  - destruct (validate parse body) as [data | e] eqn:Hv.
    + destruct (reachable (database app)) eqn:H.
      * rewrite (POST_collection_reachable _ _ _ _ Hv H
                   (primary_key_fresh _ Hpk)).
        count_rows.
      * rewrite (POST_collection_unreachable _ _ _ _ Hv H). count_rows.
    + rewrite (POST_collection_invalid _ _ _ _ Hv). count_rows.
  - destruct (reachable (database app)) eqn:H.
    + rewrite (GET_collection_reachable _ H). count_rows.
    + rewrite (GET_collection_unreachable _ H). count_rows.
  - destruct (validate parse body) as [data | e] eqn:Hv.
    + destruct (reachable (database app)) eqn:H.
      * rewrite (PUT_item_reachable _ _ _ _ _ _ Hv H). count_rows.
      * rewrite (PUT_item_unreachable _ _ _ _ _ _ Hv H). count_rows.
    + rewrite (PUT_item_invalid _ _ _ _ _ _ Hv). count_rows.
  - destruct (reachable (database app)) eqn:H.
    + rewrite (DELETE_item_reachable _ _ _ H).
      pose proof (where_split_length rid (rows (database app))) as Hlen.
      destruct Hpk as [Hnd _].
      destruct (where_id_at_most_one rid _ Hnd) as [E | (row & E & _)];
        rewrite E in *; cbn in Hlen; count_rows.
    + rewrite (DELETE_item_unreachable _ _ _ H). count_rows.
Qed.

Lemma succeeded_cons kind p trace :
  succeeded kind (p :: trace)
  = (succeeded kind [p] + succeeded kind trace)%nat.
Proof.
  destruct p as [req response]. cbn [succeeded].
  by destruct (kind req && bool_decide (status response = 200%Z)).
Qed.

(** X6. Counting rows: from a table that satisfies the key constraint,
    after any sequence of requests the table holds as many rows as before,
    plus one for each POST answered 200, minus one for each DELETE answered
    200; no other request and no failed request changes the count. *)
Theorem row_count parse reqs app :
  primary_key (database app) ->
  (length (rows (database (snd (run parse reqs app))))
   + succeeded is_DELETE (fst (run parse reqs app))
   = length (rows (database app))
     + succeeded is_POST (fst (run parse reqs app)))%nat.
Proof.
  revert app. induction reqs as [| req reqs IH]; intros app Hpk.
  - cbn. lia.
  - rewrite run_cons. cbn [fst snd].
    rewrite (succeeded_cons is_DELETE), (succeeded_cons is_POST).
    pose proof (handle_row_count parse req app Hpk) as Hstep.
    pose proof (IH _ (primary_key_handle parse req app Hpk)) as Hrest.
    lia.
Qed.

Lemma row_count_witness :
  primary_key (database startup)
  /\ (length (rows (database
                      (snd (run lax_datetime
                              [POST_one smooth_body;
                               POST_one (pothole_body (VStr "not-a-date"));
                               DELETE_one "1" (Some 7%Z);
                               POST_one smooth_body;
                               DELETE_one "1" (Some 1%Z)]
                              startup))))
      = 1)%nat.
Proof.
  split; [exact primary_key_startup |].
  pose proof (row_count lax_datetime
                [POST_one smooth_body;
                 POST_one (pothole_body (VStr "not-a-date"));
                 DELETE_one "1" (Some 7%Z);
                 POST_one smooth_body;
                 DELETE_one "1" (Some 1%Z)]
                startup primary_key_startup) as H.
  vm_compute in H. vm_compute. lia.
Defined.

(** ** How the routes compose *)

(** X8. After a DELETE on a reachable database the id has no row, whether
    it had one or not: reading it answers the 500 that wraps "Record not
    found", and deleting it again answers the 500 that wraps the
    [TypeError] and leaves the table as it is. *)
Theorem delete_then_read segment record_id app :
  reachable (database app) = true ->
  let app' := snd (DELETE_item segment (Some record_id) app) in
  (record_id ∉ ids (database app'))
  /\ fst (GET_item segment (Some record_id) app') = not_found_as_500
  /\ fst (DELETE_item segment (Some record_id) app') = type_error_as_500
  /\ rows (database (snd (DELETE_item segment (Some record_id) app')))
     = rows (database app').
Proof.
  intros H. cbv zeta. rewrite (DELETE_item_reachable _ _ _ H). cbn [snd].
  set (app' := with_database _ app).
  assert (H' : reachable (database app') = true) by reflexivity.
  assert (Habs : record_id ∉ ids (database app'))
    by apply where_not_id_ids.
  split; [exact Habs |].
  rewrite (GET_item_reachable _ _ _ H'), (DELETE_item_reachable _ _ _ H').
  rewrite (where_id_absent _ _ Habs). cbn [fst snd].
  split; [reflexivity |]. split; [reflexivity |].
  cbn [database with_database rows]. by apply where_not_id_absent.
Qed.

Lemma delete_then_read_witness :
  reachable (database one_pothole) = true
  /\ fst (GET_item "1" (Some 1%Z)
            (snd (DELETE_item "1" (Some 1%Z) one_pothole)))
     = not_found_as_500.
Proof.
  assert (H : reachable (database one_pothole) = true) by reflexivity.
  split; [exact H |].
  exact (proj1 (proj2 (delete_then_read "1" 1%Z one_pothole H))).
Defined.

Lemma set_values_elem_other record_id v (table : list Row) r :
  r ∈ set_values record_id v table -> c.id r <> record_id -> r ∈ table.
Proof.
  unfold set_values. intros Hin Hne.
  apply list_elem_of_In, in_map_iff in Hin as (r0 & Hr & Hr0).
  apply list_elem_of_In in Hr0.
  destruct (decide (c.id r0 = record_id)) as [Heq | _].
  - subst r. cbn in Hne. contradiction.
  - by subst r.
Qed.

(** X10. PUT and DELETE act on the rows with the requested id only: a row
    with any other id is in the table afterwards exactly if it was there
    before, whatever the outcome of the request. *)
Theorem other_rows_are_untouched parse segment record_id body app r :
  record_id <> Some (c.id r) ->
  (r ∈ rows (database
               (snd (PUT_item parse segment record_id body app)))
   <-> r ∈ rows (database app))
  /\ (r ∈ rows (database (snd (DELETE_item segment record_id app)))
      <-> r ∈ rows (database app)).
Proof.
  intros Hne. destruct record_id as [rid |]; [| done].
  assert (Hid : c.id r <> rid) by congruence.
  split.
  - destruct (validate parse body) as [data | e] eqn:Hv.
    + destruct (reachable (database app)) eqn:H.
      * rewrite (PUT_item_reachable _ _ _ _ _ _ Hv H).
        cbn [snd database with_database rows]. split.
        -- intros Hin. by apply (set_values_elem_other rid (values_of data)).
        -- intros Hin. by apply set_values_other.
      * by rewrite (PUT_item_unreachable _ _ _ _ _ _ Hv H).
    + by rewrite (PUT_item_invalid _ _ _ _ _ _ Hv).
  - destruct (reachable (database app)) eqn:H.
    + rewrite (DELETE_item_reachable _ _ _ H).
      cbn [snd database with_database rows]. unfold where_not_id.
      rewrite list_elem_of_filter. tauto.
    + by rewrite (DELETE_item_unreachable _ _ _ H).
Qed.

Lemma other_rows_are_untouched_witness :
  Some 2%Z <> Some (c.id (row_of 1 (values_of pothole)))
  /\ row_of 1 (values_of pothole)
     ∈ rows (database (snd (DELETE_item "1" (Some 2%Z) one_pothole))).
Proof.
  assert (H : Some 2%Z <> Some (c.id (row_of 1 (values_of pothole))))
    by discriminate.
  split; [exact H |].
  apply (proj2 (other_rows_are_untouched lax_datetime "1" (Some 2%Z)
                  smooth_body one_pothole _ H)).
  apply list_elem_of_here.
Defined.

Lemma set_values_twice record_id v (table : list Row) :
  set_values record_id v (set_values record_id v table)
  = set_values record_id v table.
Proof.
  unfold set_values. induction table as [| r table IH]; [done |].
  cbn [map]. rewrite IH. f_equal.
  destruct (decide (c.id r = record_id)) as [Heq | Hne].
  - cbn. by rewrite decide_True.
  - by rewrite decide_False.
Qed.

(** X11. PUT is idempotent on the table: sending the same update a second
    time gives the same answer and the same rows as sending it once. *)
Theorem update_twice parse segment record_id body app :
  let once := PUT_item parse segment record_id body app in
  let twice := PUT_item parse segment record_id body (snd once) in
  fst twice = fst once
  /\ rows (database (snd twice)) = rows (database (snd once)).
Proof.
  cbv zeta. destruct record_id as [rid |]; [| done].
  destruct (validate parse body) as [data | e] eqn:Hv.
  - destruct (reachable (database app)) eqn:H.
    + rewrite (PUT_item_reachable _ _ _ _ _ _ Hv H). cbn [snd].
      rewrite (PUT_item_reachable _ _ _ _ _ _ Hv) by reflexivity.
      cbn [fst snd database with_database rows].
      split; [reflexivity | apply set_values_twice].
    + rewrite (PUT_item_unreachable _ _ _ _ _ _ Hv H). cbn [snd].
      by rewrite (PUT_item_unreachable _ _ _ _ _ _ Hv H).
  - rewrite (PUT_item_invalid _ _ _ _ _ _ Hv). cbn [snd].
    by rewrite (PUT_item_invalid _ _ _ _ _ _ Hv).
Qed.

(** ** The dispatcher and the subscriber set *)

Section Delivery.
Context {Data : Type} (json_dumps : Data -> Result string).
Variables (data : Data) (text : string).
Hypothesis dumps : json_dumps data = Return text.

Let send_one (websocket : WebSocket) : M App unit :=
  let* obj := (fun app => (json_dumps data, app)) in
  send_json websocket obj.

(** The loop over any duplicate-free sequence of websockets. *)
Lemma for_each_at_most_once (l : list WebSocket) : forall app,
  NoDup l ->
  exists r app',
    for_each l send_one app = (r, app')
    /\ subscriptions app' = subscriptions app
    /\ database app' = database app
    /\ (forall ws, ws ∉ l -> connections app' !! ws = connections app !! ws)
    /\ (forall ws, live app' ws = live app ws)
    /\ (forall ws, inbox app' ws = inbox app ws
                   \/ inbox app' ws = (inbox app ws ++ [text])%list).
Proof.
  induction l as [| a l IH]; intros app Hnd.
  - exists (Return tt), app. cbn. repeat split; auto.
  - apply NoDup_cons in Hnd as [Ha Hnd]. cbn [for_each]. unfold bind at 1.
    destruct (live app a) eqn:Hla.
    + unfold send_one. rewrite (body_live json_dumps data text dumps _ _ Hla).
      set (app1 := mk_App _ _ _).
      assert (Hother : forall ws, ws <> a ->
                connections app1 !! ws = connections app !! ws).
      { intros ws Hne. cbn. by rewrite lookup_insert_ne. }
      assert (Hself : connections app1 !! a
                      = Some (mk_Connection true (inbox app a ++ [text])))
        by (cbn; apply lookup_insert_eq).
      destruct (IH app1 Hnd) as (r & app' & Hrun & Hsub & Hdb & Hrest
                                 & Hlive & Hbox).
      exists r, app'. split; [exact Hrun |]. split; [by rewrite Hsub |].
      split; [by rewrite Hdb |]. split; [| split].
      * intros ws Hn. apply not_elem_of_cons in Hn as [Hne Hn].
        rewrite (Hrest _ Hn). by apply Hother.
      * intros ws. rewrite Hlive. unfold live.
        destruct (decide (ws = a)) as [-> | Hne].
        -- rewrite Hself. unfold live in Hla.
           destruct (connections app !! a) as [conn |]; [| done].
           by rewrite Hla.
        -- by rewrite Hother.
      * intros ws. destruct (decide (ws = a)) as [-> | Hne].
        -- right. unfold inbox at 1. rewrite (Hrest _ Ha), Hself.
           reflexivity.
        -- destruct (Hbox ws) as [E | E]; [left | right]; rewrite E;
             unfold inbox; by rewrite Hother.
    + unfold send_one. rewrite (body_dead json_dumps data text dumps _ _ Hla).
      exists (Raise WebSocketDisconnect), app. repeat split; auto.
Qed.
End Delivery.

(** X12. Whatever it is given and whether it returns or raises,
    [send_data_to_subscribers] never changes the subscriber set or the
    database, never sends to a websocket that is not subscribed, never
    closes a connection, and hands the serialised record to each
    connection at most once. *)
Theorem dispatcher_sends_at_most_once {Data : Type}
  (json_dumps : Data -> Result string) data app :
  let app' := snd (send_data_to_subscribers json_dumps data app) in
  subscriptions app' = subscriptions app
  /\ database app' = database app
  /\ (forall ws, ws ∉ subscriptions app ->
                 connections app' !! ws = connections app !! ws)
  /\ (forall ws, live app' ws = live app ws)
  /\ (forall ws,
        inbox app' ws = inbox app ws
        \/ exists text, json_dumps data = Return text
                        /\ inbox app' ws = (inbox app ws ++ [text])%list).
Proof.
  cbv zeta. unfold send_data_to_subscribers.
  assert (Hcase : (exists text, json_dumps data = Return text)
                  \/ (exists e, json_dumps data = Raise e))
    by (destruct (json_dumps data); eauto).
  destruct Hcase as [[text Hd] | [e Hd]].
  - destruct (for_each_at_most_once json_dumps data text Hd
                (elements (subscriptions app)) app (NoDup_elements _))
      as (r & app' & Hrun & Hsub & Hdb & Hrest & Hlive & Hbox).
    rewrite Hrun. cbn [snd]. split; [exact Hsub |]. split; [exact Hdb |].
    split; [| split; [exact Hlive |]].
    + intros ws Hn. apply Hrest. by rewrite elem_of_elements.
    + intros ws. destruct (Hbox ws) as [E | E]; [by left |].
      right. by exists text.
  - destruct (elements (subscriptions app)) as [| a l].
    + cbn. repeat split; auto.
    + cbn [for_each]. unfold bind. rewrite Hd. cbn. repeat split; auto.
Qed.

(** X13. With every subscriber's connection open the dispatcher returns
    normally and each subscriber is sent the serialised record exactly
    once, after what it had been sent before; the subscriber set and the
    database are unchanged and no other connection is touched. *)
Theorem broadcast_reaches_every_subscriber {Data : Type}
  (json_dumps : Data -> Result string) data text app :
  json_dumps data = Return text ->
  (forall ws, ws ∈ subscriptions app -> live app ws = true) ->
  exists app',
    send_data_to_subscribers json_dumps data app = (Return tt, app')
    /\ subscriptions app' = subscriptions app
    /\ database app' = database app
    /\ (forall ws, ws ∈ subscriptions app ->
                   inbox app' ws = (inbox app ws ++ [text])%list)
    /\ (forall ws, ws ∉ subscriptions app ->
                   connections app' !! ws = connections app !! ws).
Proof.
  intros Hd Hlive.
  destruct (for_each_all json_dumps data text Hd
              (elements (subscriptions app)) app)
    as (app' & Hrun & Hsub & Hdb & Hin & Hout).
  - apply NoDup_elements.
  - intros ws Hws. apply Hlive. by apply elem_of_elements.
  - exists app'. split; [exact Hrun |]. split; [exact Hsub |].
    split; [exact Hdb |]. split.
    + intros ws Hws. apply Hin. by apply elem_of_elements.
    + intros ws Hws. apply Hout. by rewrite elem_of_elements.
Qed.

Lemma broadcast_reaches_every_subscriber_witness :
  dumps_empty_dict tt = Return "{}"
  /\ (forall ws, ws ∈ subscriptions one_subscriber ->
                 live one_subscriber ws = true)
  /\ exists app',
       send_data_to_subscribers dumps_empty_dict tt one_subscriber
       = (Return tt, app')
       /\ inbox app' 1%nat = ["{}"].
Proof.
  assert (H0 : dumps_empty_dict tt = Return "{}") by reflexivity.
  assert (H1 : forall ws, ws ∈ subscriptions one_subscriber ->
                          live one_subscriber ws = true).
  { intros ws Hws. cbn in Hws. apply elem_of_union in Hws as [Hws | Hws].
    - apply elem_of_singleton in Hws as ->. reflexivity.
    - by apply not_elem_of_empty in Hws. }
  split; [exact H0 |]. split; [exact H1 |].
  destruct (broadcast_reaches_every_subscriber dumps_empty_dict tt "{}"
              one_subscriber H0 H1) as (app' & Hrun & _ & _ & Hin & _).
  exists app'. split; [exact Hrun |].
  rewrite (Hin 1%nat); [reflexivity |].
  cbn. apply elem_of_union_l. by apply elem_of_singleton.
Defined.

(** X14. [json.dumps] runs inside the loop: when the object cannot be
    serialised the dispatcher raises that error as soon as there is one
    subscriber and sends nothing, and with no subscriber it returns
    normally without having tried. *)
Theorem dispatch_of_unserialisable_data {Data : Type}
  (json_dumps : Data -> Result string) data e app :
  json_dumps data = Raise e ->
  send_data_to_subscribers json_dumps data app
  = (if decide (subscriptions app = ∅) then Return tt else Raise e, app).
Proof.
  intros Hd. unfold send_data_to_subscribers.
  destruct (elements (subscriptions app)) as [| a l] eqn:E.
  - apply elements_empty_inv, leibniz_equiv in E.
    rewrite decide_True by done. reflexivity.
  - rewrite decide_False.
    + cbn [for_each]. unfold bind. by rewrite Hd.
    + intros Hempty. rewrite Hempty, elements_empty in E. discriminate E.
Qed.

Lemma dispatch_of_unserialisable_data_witness :
  dumps_unserialisable tt
  = Raise (TypeError "Object of type ProcessedAgentData is not JSON serializable")
  /\ fst (send_data_to_subscribers dumps_unserialisable tt startup)
     = Return tt
  /\ fst (send_data_to_subscribers dumps_unserialisable tt one_subscriber)
     = Raise (TypeError
                "Object of type ProcessedAgentData is not JSON serializable").
Proof.
  assert (H0 : dumps_unserialisable tt
               = Raise (TypeError
                   "Object of type ProcessedAgentData is not JSON serializable"))
    by reflexivity.
  split; [exact H0 |]. split.
  - rewrite (dispatch_of_unserialisable_data dumps_unserialisable tt _
               startup H0).
    cbn [fst]. by rewrite decide_True.
  - rewrite (dispatch_of_unserialisable_data dumps_unserialisable tt _
               one_subscriber H0).
    cbn [fst]. rewrite decide_False; [reflexivity |].
    intros Hempty.
    assert (Hin : 1%nat ∈ subscriptions one_subscriber)
      by (cbn; apply elem_of_union_l; by apply elem_of_singleton).
    rewrite Hempty in Hin. by apply not_elem_of_empty in Hin.
Defined.

(** X15. One run of [websocket_endpoint]: after the accept the websocket
    is subscribed; when the peer disconnects the [except] branch returns
    normally, the websocket is no longer subscribed and sends to it fail;
    the membership of every other websocket and the database are the same
    throughout. *)
Theorem websocket_endpoint_membership websocket other app :
  other <> websocket ->
  let connected := snd (websocket_endpoint_accept websocket app) in
  let gone := snd (websocket_endpoint_disconnect websocket connected) in
  (websocket ∈ subscriptions connected)
  /\ live connected websocket = true
  /\ (other ∈ subscriptions connected <-> other ∈ subscriptions app)
  /\ fst (websocket_endpoint_disconnect websocket connected) = Return tt
  /\ (websocket ∉ subscriptions gone)
  /\ live gone websocket = false
  /\ (other ∈ subscriptions gone <-> other ∈ subscriptions app)
  /\ database gone = database app.
Proof.
  intros Hne. cbv zeta.
  assert (Hin : websocket
                ∈ subscriptions (snd (websocket_endpoint_accept websocket app)))
    by (cbn; apply elem_of_union_l; by apply elem_of_singleton).
  split; [exact Hin |]. split.
  { unfold live. cbn. by rewrite lookup_insert_eq. }
  split.
  { cbn. rewrite elem_of_union, elem_of_singleton. tauto. }
  unfold websocket_endpoint_disconnect, set_remove.
  cbn [subscriptions peer_closes websocket_endpoint_accept snd database
       connections].
  rewrite decide_True by (apply elem_of_union_l; by apply elem_of_singleton).
  cbn [fst snd subscriptions database].
  split; [reflexivity |]. split.
  { rewrite elem_of_difference, elem_of_singleton. tauto. }
  split.
  { unfold live. cbn [connections]. rewrite lookup_alter_eq, lookup_insert_eq.
    reflexivity. }
  split; [| reflexivity].
  rewrite elem_of_difference, elem_of_union, !elem_of_singleton. tauto.
Qed.

Lemma websocket_endpoint_membership_witness :
  1%nat <> 2%nat
  /\ (1%nat ∈ subscriptions
               (snd (websocket_endpoint_disconnect 2%nat
                       (snd (websocket_endpoint_accept 2%nat
                               one_subscriber))))).
Proof.
  assert (H : 1%nat <> 2%nat) by discriminate.
  split; [exact H |].
  pose proof (websocket_endpoint_membership 2%nat 1%nat one_subscriber H)
    as (_ & _ & _ & _ & _ & _ & Hiff & _).
  apply Hiff. cbn. apply elem_of_union_l. by apply elem_of_singleton.
Defined.

(** ** What a request leaves alone *)

Lemma where_id_nil_absent record_id (table : list Row) :
  where_id record_id table = [] -> where_not_id record_id table = table.
Proof.
  intros E. apply where_not_id_absent. intros Hin.
  apply list_elem_of_fmap in Hin as (r & Heq & Hr).
  assert (Hf : r ∈ where_id record_id table)
    by (by apply list_elem_of_filter).
  rewrite E in Hf. by apply elem_of_nil in Hf.
Qed.

(** X16. A request that is not answered 200 leaves the table as it was:
    rejected parameters, an unreachable database, a key collision on
    insert and a DELETE of an id without a row all end with the same rows
    as before. *)
Theorem failed_request_keeps_the_table parse req app :
  status (fst (handle parse req app)) <> 200%Z ->
  rows (database (snd (handle parse req app))) = rows (database app).
Proof.
  intros Hfail.
  destruct req as [segment [rid |] | body | | segment [rid |] body
                  | segment [rid |]]; cbn [handle] in *; try reflexivity.
  - apply (GET_item_frame segment (Some rid) app).
  - destruct (validate parse body) as [data | e] eqn:Hv.
    + destruct (reachable (database app)) eqn:H.
      * cbv [POST_collection serve connect_to_db] in *. rewrite Hv in *.
        destruct (decide (Exists (fun r => c.id r = id_seq (database app))
                                 (rows (database app)))) as [Hex | Hn].
        -- by rewrite (create_collision _ _ H Hex).
        -- rewrite (create_reachable _ _ H) in Hfail.
           ++ exfalso. by apply Hfail.
           ++ apply Forall_forall. intros r Hr Heq. apply Hn.
              apply Exists_exists. eauto.
      * by rewrite (POST_collection_unreachable _ _ _ _ Hv H).
    + by rewrite (POST_collection_invalid _ _ _ _ Hv).
  - apply (GET_collection_frame app).
  - destruct (validate parse body) as [data | e] eqn:Hv.
    + destruct (reachable (database app)) eqn:H.
      * rewrite (PUT_item_reachable _ _ _ _ _ _ Hv H) in Hfail.
        exfalso. by apply Hfail.
      * by rewrite (PUT_item_unreachable _ _ _ _ _ _ Hv H).
    + by rewrite (PUT_item_invalid _ _ _ _ _ _ Hv).
  - destruct (reachable (database app)) eqn:H.
    + rewrite (DELETE_item_reachable _ _ _ H) in *.
      cbn [fst snd database with_database rows] in *.
      destruct (where_id rid (rows (database app))) as [| row rest] eqn:E.
      * by apply where_id_nil_absent.
      * exfalso. by apply Hfail.
    + by rewrite (DELETE_item_unreachable _ _ _ H).
Qed.

Lemma failed_request_keeps_the_table_witness :
  status (fst (handle lax_datetime (DELETE_one "1" (Some 2%Z))
                 one_pothole)) <> 200%Z
  /\ rows (database
             (snd (handle lax_datetime (DELETE_one "1" (Some 2%Z))
                     one_pothole)))
     = [row_of 1 (values_of pothole)].
Proof.
  assert (H : status (fst (handle lax_datetime
                             (DELETE_one "1" (Some 2%Z)) one_pothole))
              <> 200%Z) by (vm_compute; discriminate).
  split; [exact H |].
  exact (failed_request_keeps_the_table lax_datetime
           (DELETE_one "1" (Some 2%Z)) one_pothole H).
Defined.

Lemma handle_subscribers parse req app :
  subscriptions (snd (handle parse req app)) = subscriptions app
  /\ connections (snd (handle parse req app)) = connections app.
Proof.
  destruct req as [segment rid | body | | segment [rid |] body
                  | segment [rid |]]; cbn [handle]; try done.
  - pose proof (GET_item_frame segment rid app) as H. tauto.
  - apply POST_collection_frame.
  - pose proof (GET_collection_frame app) as H. tauto.
  - cbv [PUT_item serve connect_to_db unprocessable].
    destruct (validate parse body) as [data | e]; [| done].
    by destruct (update_processed_agent_data _ _ _).
  - cbv [DELETE_item serve connect_to_db].
    by destruct (delete_processed_agent_data _ _).
Qed.

(** X17. No HTTP route reaches the subscribers: after any sequence of
    requests the subscriber set is the same and every connection has been
    sent exactly what it had been sent before. *)
Theorem requests_never_reach_subscribers parse reqs app :
  let app' := snd (run parse reqs app) in
  subscriptions app' = subscriptions app
  /\ connections app' = connections app
  /\ forall ws, inbox app' ws = inbox app ws.
Proof.
  cbv zeta.
  assert (H : subscriptions (snd (run parse reqs app))
              = subscriptions app
              /\ connections (snd (run parse reqs app))
                 = connections app).
  { revert app. induction reqs as [| req reqs IH]; intros app; [done |].
    rewrite run_cons. cbn [snd].
    destruct (IH (snd (handle parse req app))) as [Hs Hc].
    destruct (handle_subscribers parse req app) as [Hs' Hc'].
    split; congruence. }
  destruct H as [Hs Hc]. split; [exact Hs |]. split; [exact Hc |].
  intros ws. unfold inbox. by rewrite Hc.
Qed.

(** ** Endpoints over time *)

Lemma step_keeps_receiving parse ev p :
  enabled ev p ->
  subscriptions (state p) = receiving p ->
  fst (step parse ev p) = Return tt
  /\ subscriptions (state (snd (step parse ev p)))
     = receiving (snd (step parse ev p)).
Proof.
  intros Hen Hinv. destruct ev as [ws | ws | req]; cbn [step enabled] in *.
  - cbn. split; [reflexivity |]. by rewrite Hinv.
  - unfold websocket_endpoint_disconnect, set_remove.
    cbn [subscriptions peer_closes]. rewrite Hinv.
    rewrite decide_True by done. cbn. done.
  - cbn [fst snd state receiving]. split; [reflexivity |].
    by rewrite (proj1 (handle_subscribers parse req (state p))).
Qed.

(** X18. Unregistering never fails: from start-up, in every sequence of
    connects, disconnects of waiting endpoints and HTTP requests, each
    event returns normally (no [KeyError] from [subscriptions.remove]),
    and the subscriber set is at every end exactly the set of websockets
    whose endpoint is waiting in [receive_text]. *)
Theorem unregister_never_fails parse evs p :
  subscriptions (state p) = receiving p ->
  possible parse evs p ->
  Forall (fun r => r = Return tt) (fst (steps parse evs p))
  /\ subscriptions (state (snd (steps parse evs p)))
     = receiving (snd (steps parse evs p)).
Proof.
  revert p. induction evs as [| ev evs IH]; intros p Hinv Hposs.
  - split; [apply Forall_nil_2 | exact Hinv].
  - destruct Hposs as [Hen Hposs].
    destruct (step_keeps_receiving parse ev p Hen Hinv) as [Hr Hinv'].
    cbn [steps]. destruct (step parse ev p) as [r p1]. cbn [fst snd] in *.
    destruct (IH p1 Hinv' Hposs) as [Hrs Hend].
    destruct (steps parse evs p1) as [rs p2]. cbn [fst snd] in *.
    split; [by apply Forall_cons | exact Hend].
Qed.

Lemma unregister_never_fails_witness :
  subscriptions (state (mk_Process startup ∅)) = receiving (mk_Process startup ∅)
  /\ possible lax_datetime
       [Connect 1%nat; Serve (POST_one smooth_body); Connect 2%nat;
        Disconnect 1%nat; Disconnect 2%nat]
       (mk_Process startup ∅)
  /\ fst (steps lax_datetime
            [Connect 1%nat; Serve (POST_one smooth_body); Connect 2%nat;
             Disconnect 1%nat; Disconnect 2%nat]
            (mk_Process startup ∅))
     = [Return tt; Return tt; Return tt; Return tt; Return tt].
Proof.
  assert (H0 : subscriptions (state (mk_Process startup ∅))
               = receiving (mk_Process startup ∅)) by reflexivity.
  assert (H1 : possible lax_datetime
                 [Connect 1%nat; Serve (POST_one smooth_body); Connect 2%nat;
                  Disconnect 1%nat; Disconnect 2%nat]
                 (mk_Process startup ∅)).
  { cbn [possible enabled]. split; [reflexivity |]. split; [done |].
    split; [by vm_compute |]. split.
    - cbn. set_unfold. tauto.
    - split; [| done]. cbn. set_unfold. naive_solver. }
  split; [exact H0 |]. split; [exact H1 |].
  pose proof (proj1 (unregister_never_fails lax_datetime _ _ H0 H1)) as H.
  destruct (fst (steps _ _ _)) as [| r1 [| r2 [| r3 [| r4 [| r5 [| r6 rs]]]]]] eqn:E;
    try (vm_compute in E; discriminate E).
  repeat match goal with
         | Hf : Forall _ (_ :: _) |- _ =>
             apply Forall_cons in Hf as [-> Hf]
         end.
  reflexivity.
Defined.
